(** * kenpom: table rows of kenpom.com turned into [Team] records

    A shallow embedding of [kenpom.py] and the properties of its row
    extractor ([KenPomParser]) and record builder ([_create_teams]).

    The Python values the module handles are embedded as follows:
    - [str] as [string], the UTF-8 bytes of the text; where the
      characters matter, in [int()] and [float()], the bytes are read
      back as code points, with the spaces and the decimal digits of
      Unicode 14.0 (the tables of CPython 3.11);
    - [int] as [Z] (Python integers are unbounded);
    - [float] as [spec_float] at binary64 ([prec = 53], [emax = 1024]);
    - a raised exception as the [Raise] branch of [result];
    - the [dict] of teams as a [gmap string Team]. *)

From Stdlib Require Import ZArith Ascii Floats Lia.
From stdpp Require Import gmap strings list.

#[local] Open Scope Z_scope.
#[local] Set Warnings "-inexact-float".

(** ** Exceptions and results *)

(** The two exceptions of the code that is modelled, the extractor, the
    builder and [Team]: both come from built-ins ([int], [float], tuple
    unpacking, [len], [str.join]). What the fetch and the decoding of the
    page can raise in [get] is outside the model. *)
Inductive exn : Set :=
  | ValueError
  | TypeError.

Inductive result (A : Type) : Type :=
  | Ok (a : A)
  | Raise (e : exn).
Arguments Ok {A} a.
Arguments Raise {A} e.

#[global] Instance result_ret : MRet result := fun _ a => Ok a.
#[global] Instance result_bind : MBind result := fun _ _ f m =>
  match m with
  | Ok a => f a
  | Raise e => Raise e
  end.

Definition is_Ok {A} (r : result A) : Prop := exists a, r = Ok a.

(** A built-in that returns [None] in the model raises [ValueError]
    in Python ([int('x')], [float('x')]). *)
Definition or_ValueError {A} (o : option A) : result A :=
  match o with
  | Some a => Ok a
  | None => Raise ValueError
  end.

(** ** Characters and white space *)

Definition code (c : ascii) : Z := Z.of_N (N_of_ascii c).

(** [Py_ISSPACE], the white space the parsers of [int()] and [float()]
    skip in ASCII text: TAB, LF, VT, FF, CR and the space. The separators
    FS, GS, RS and US (28 to 31), which [str.strip()] removes, are not
    among them: [int('\x1c12')] is a [ValueError]. *)
Definition is_space (c : ascii) : bool :=
  ((9 <=? code c) && (code c <=? 13)) || (code c =? 32).

Definition is_digit (c : ascii) : bool :=
  (48 <=? code c) && (code c <=? 57).

Definition digit_val (c : ascii) : Z := code c - 48.

Fixpoint lstrip (s : string) : string :=
  match s with
  | EmptyString => EmptyString
  | String c s' => if is_space c then lstrip s' else s
  end.

Fixpoint rstrip (s : string) : string :=
  match s with
  | EmptyString => EmptyString
  | String c s' =>
      match rstrip s' with
      | EmptyString => if is_space c then EmptyString else String c EmptyString
      | r => String c r
      end
  end.

(** The text between the [Py_ISSPACE] characters at both ends, which is
    what [PyLong_FromString] and [float_from_string_inner] go on with.
    This is not [str.strip()], which removes more (see [is_space]). *)
Definition strip (s : string) : string := rstrip (lstrip s).

(** [c in s] for a one-character [c]. *)
Fixpoint contains (c : ascii) (s : string) : bool :=
  match s with
  | EmptyString => false
  | String c' s' => Ascii.eqb c' c || contains c s'
  end.

(** [s.count(c)] for a one-character [c]. *)
Fixpoint count (c : ascii) (s : string) : nat :=
  match s with
  | EmptyString => O
  | String c' s' => if Ascii.eqb c' c then S (count c s') else count c s'
  end.

(** ** From a [str] to the ASCII text of a number *)

(** The spaces of Unicode above ASCII ([Py_UNICODE_ISSPACE] from 128 on),
    as ranges of code points: NEL, NBSP, the Ogham space, the spaces of
    the General Punctuation block, the line and paragraph separators, the
    narrow and the mathematical space, the ideographic space. *)
Definition unicode_spaces : list (Z * Z) :=
  [(133, 133); (160, 160); (5760, 5760); (8192, 8202); (8232, 8233);
   (8239, 8239); (8287, 8287); (12288, 12288)].

Definition is_unicode_space (cp : Z) : bool :=
  existsb (fun '(lo, hi) => (lo <=? cp) && (cp <=? hi)) unicode_spaces.

(** The decimal digits of Unicode 14.0 (category Nd) come in 66 runs of
    ten, zero to nine: the code point of each zero. *)
Definition decimal_zeros : list Z :=
  [48; 1632; 1776; 1984; 2406; 2534; 2662; 2790; 2918; 3046; 3174; 3302;
   3430; 3558; 3664; 3792; 3872; 4160; 4240; 6112; 6160; 6470; 6608; 6784;
   6800; 6992; 7088; 7232; 7248; 42528; 43216; 43264; 43472; 43504; 43600;
   44016; 65296; 66720; 68912; 69734; 69872; 69942; 70096; 70384; 70736;
   70864; 71248; 71360; 71472; 71904; 72016; 72784; 73040; 73120; 92768;
   92864; 93008; 120782; 120792; 120802; 120812; 120822; 123200; 123632;
   125264; 130032].

(** [Py_UNICODE_TODECIMAL]: the value of a decimal digit. *)
Definition to_decimal (cp : Z) : option Z :=
  match find (fun z => (z <=? cp) && (cp <=? z + 9)) decimal_zeros with
  | Some z => Some (cp - z)
  | None => None
  end.

(** Reading UTF-8: between two characters, or inside one with [more]
    bytes to come after the next, the bits read so far in [acc], and the
    least code point [low] the sequence may encode. *)
Inductive utf8 : Type :=
  | Start
  | Inside (more : nat) (acc low : Z).

(** What one byte does: it gives a character of the ASCII text, or goes
    on inside a sequence, or ends the text. *)
Inductive step : Type :=
  | Emit (c : ascii)
  | Wait (st : utf8)
  | Bad.

(** A code point above ASCII becomes a space when it is a space, its
    ASCII digit when it is a decimal digit, and ends the text
    otherwise. *)
Definition code_point_to_ascii (cp : Z) : step :=
  if is_unicode_space cp then Emit " "
  else
    match to_decimal cp with
    | Some d => Emit (ascii_of_N (Z.to_N (48 + d)))
    | None => Bad
    end.

Definition utf8_step (st : utf8) (b : ascii) : step :=
  let c := code b in
  match st with
  | Start =>
      if c <? 128 then Emit b
      else if (194 <=? c) && (c <=? 223) then Wait (Inside 0 (c - 192) 128)
      else if (224 <=? c) && (c <=? 239) then Wait (Inside 1 (c - 224) 2048)
      else if (240 <=? c) && (c <=? 244) then Wait (Inside 2 (c - 240) 65536)
      else Bad
  | Inside more acc low =>
      if (128 <=? c) && (c <=? 191) then
        let acc' := 64 * acc + (c - 128) in
        match more with
        | S more' => Wait (Inside more' acc' low)
        | O =>
            if (low <=? acc') && (acc' <=? 1114111)
               && negb ((55296 <=? acc') && (acc' <=? 57343))
            then code_point_to_ascii acc'
            else Bad
        end
      else Bad
  end.

(** [_PyUnicode_TransformDecimalAndSpaceToASCII], on the UTF-8 bytes of
    the [str]: ASCII characters stay, spaces become [" "], decimal digits
    become ASCII digits, and at any other character the text ends with a
    ["?"], which no number contains. Bytes that are not UTF-8, the bytes
    of no [str], end the text in the same way. *)
Fixpoint to_ascii_from (st : utf8) (s : string) : string :=
  match s with
  | EmptyString =>
      match st with
      | Start => EmptyString
      | Inside _ _ _ => "?"
      end
  | String b s' =>
      match utf8_step st b with
      | Emit c => String c (to_ascii_from Start s')
      | Wait st' => to_ascii_from st' s'
      | Bad => "?"
      end
  end.

Definition to_ascii (s : string) : string := to_ascii_from Start s.

(** ** Numeric literals *)

(** The rest of a [digitpart ::= digit (["_"] digit)*], read after its
    first digit: the value so far, the number of digits so far, and on
    return the text that is left. An underscore belongs to the digit part
    only between two digits. *)
Fixpoint digitpart_rest (s : string) (acc : Z) (n : Z) : Z * Z * string :=
  match s with
  | EmptyString => (acc, n, s)
  | String c s' =>
      if is_digit c then digitpart_rest s' (10 * acc + digit_val c) (n + 1)
      else if Ascii.eqb c "_" then
        match s' with
        | String c' s'' =>
            if is_digit c'
            then digitpart_rest s'' (10 * acc + digit_val c') (n + 1)
            else (acc, n, s)
        | EmptyString => (acc, n, s)
        end
      else (acc, n, s)
  end.

(** A digit part continuing the value [acc] of [n] digits; no digit is
    read when [s] does not start with one. *)
Definition digitpart (s : string) (acc : Z) (n : Z) : Z * Z * string :=
  match s with
  | String c s' =>
      if is_digit c then digitpart_rest s' (10 * acc + digit_val c) (n + 1)
      else (acc, n, s)
  | EmptyString => (acc, n, s)
  end.

(** An optional sign: [true] for a minus. *)
Definition sign (s : string) : bool * string :=
  match s with
  | String c s' =>
      if Ascii.eqb c "-" then (true, s')
      else if Ascii.eqb c "+" then (false, s')
      else (false, s)
  | EmptyString => (false, s)
  end.

(** [sys.int_info.default_max_str_digits]: the most digits [int()]
    reads in a decimal text, unless the interpreter is told otherwise. *)
Definition int_max_str_digits : Z := 4300.

(** [PyLong_FromString] in base 10, on ASCII text: white space around,
    an optional sign, one digit part of at most [int_max_str_digits]
    digits, and nothing else. [None] is [ValueError]. *)
Definition int_literal (s : string) : option Z :=
  let '(neg, s1) := sign (strip s) in
  match digitpart s1 0 0 with
  | (v, n, EmptyString) =>
      if (n =? 0) || (int_max_str_digits <? n) then None
      else Some (if neg then - v else v)
  | _ => None
  end.

(** [int(s)] on a [str]. *)
Definition py_int (s : string) : option Z := int_literal (to_ascii s).

(** The binary64 value nearest to [(-1)^neg * m * 10^e], ties to even,
    as [strtod] rounds: the quotient of two integers, rounded once. Too
    large a value becomes an infinity and too small a one a zero, both
    without an error. *)
Definition nearest_binary64 (neg : bool) (m e : Z) : spec_float :=
  match m * 10 ^ Z.max e 0, 10 ^ Z.max (- e) 0 with
  | Zpos p, Zpos q =>
      SFdiv prec emax (S754_finite neg p 0) (S754_finite false q 0)
  | _, _ => S754_zero neg
  end.

(** [number [exponent]] of the grammar of [float()], with
    [number ::= [digitpart] "." digitpart | digitpart ["."]] and
    [exponent ::= ("e" | "E") [sign] digitpart]: the digits as one
    integer and the power of ten that scales it. *)
Definition floatnumber (s : string) : option (Z * Z) :=
  let '(ip, ni, s2) := digitpart s 0 0 in
  let '(m, nf, s3) :=
    match s2 with
    | String "." r => digitpart r ip 0
    | _ => (ip, 0, s2)
    end in
  if ni + nf =? 0 then None
  else
    match s3 with
    | EmptyString => Some (m, - nf)
    | String c r =>
        if Ascii.eqb c "e" || Ascii.eqb c "E" then
          let '(eneg, r1) := sign r in
          match digitpart r1 0 0 with
          | (ev, ne, EmptyString) =>
              if ne =? 0 then None
              else Some (m, (if eneg then - ev else ev) - nf)
          | _ => None
          end
        else None
    end.

Definition lower (c : ascii) : ascii :=
  if (65 <=? code c) && (code c <=? 90)
  then ascii_of_N (N_of_ascii c + 32)
  else c.

Fixpoint lowercase (s : string) : string :=
  match s with
  | EmptyString => EmptyString
  | String c s' => String (lower c) (lowercase s')
  end.

(** ["inf"], ["infinity"] and ["nan"] in any letter case. *)
Definition inf_or_nan (neg : bool) (s : string) : option spec_float :=
  let l := lowercase s in
  if String.eqb l "inf" || String.eqb l "infinity" then Some (S754_infinity neg)
  else if String.eqb l "nan" then Some S754_nan
  else None.

(** [float_from_string_inner], on ASCII text: white space around, an
    optional sign, then a decimal number or an infinity or a nan, and
    nothing else. [None] is [ValueError]. *)
Definition float_literal (s : string) : option spec_float :=
  let '(neg, s1) := sign (strip s) in
  match floatnumber s1 with
  | Some (m, e) => Some (nearest_binary64 neg m e)
  | None => inf_or_nan neg s1
  end.

(** [float(s)] on a [str]. *)
Definition py_float (s : string) : option spec_float :=
  float_literal (to_ascii s).

(** The binary64 value a Python float literal denotes. *)
Abbreviation binary64 x := (Prim2SF x%float) (only parsing).

(** ** [str.split] and [str.join] *)

(** [s.split(sep)] for a one-character separator: the pieces between the
    separators, one more than there are separators. *)
Fixpoint split (sep : ascii) (s : string) : list string :=
  match s with
  | EmptyString => [EmptyString]
  | String c s' =>
      if Ascii.eqb c sep then EmptyString :: split sep s'
      else
        match split sep s' with
        | p :: ps => String c p :: ps
        | [] => [String c EmptyString]
        end
  end.

(** The run-time values [str.join] can meet in this module. *)
Inductive object : Type :=
  | Int (z : Z)
  | Str (s : string)
  | Float (f : spec_float).

(** [sep.join(items)]: every item has to be a [str], anything else is a
    [TypeError]. *)
Fixpoint join (sep : string) (items : list object) : result string :=
  match items with
  | [] => Ok EmptyString
  | [Str s] => Ok s
  | Str s :: rest => r ← join sep rest; Ok (s +:+ sep +:+ r)
  | _ :: _ => Raise TypeError
  end.

(** [a, b = parts]: anything but two items is a [ValueError]. *)
Definition unpack2 {A} (parts : list A) : result (A * A) :=
  match parts with
  | [a; b] => Ok (a, b)
  | _ => Raise ValueError
  end.

(** ** The [Team] dataclass *)

Module Team.

Record Team : Type := mk {
  rank : Z;
  name : string;
  conference : string;
  wins : Z;
  losses : Z;
  efficiency : spec_float;
  offense : spec_float;
  defense : spec_float;
  tempo : spec_float;
  luck : spec_float;
  opponent_efficiency : spec_float;
  opponent_offense : spec_float;
  opponent_defense : spec_float;
  nonconference_opponent_efficiency : spec_float
}.

Definition d (self : Team) := defense self.
Definition e (self : Team) := efficiency self.
Definition l (self : Team) := losses self.
Definition nc_o_e (self : Team) := nonconference_opponent_efficiency self.
Definition o (self : Team) := offense self.
Definition o_d (self : Team) := opponent_defense self.
Definition o_e (self : Team) := opponent_efficiency self.
Definition o_o (self : Team) := opponent_offense self.

(** ['-'.join((self.wins, self.losses))]: the two fields are handed to
    [join] as they are stored, as integers. *)
Definition record (self : Team) : result string :=
  join "-" [Int (wins self); Int (losses self)].

Definition t (self : Team) := tempo self.
Definition w (self : Team) := wins self.

End Team.

(** ** [KenPomParser], the row extractor *)

(** What [HTMLParser.feed] calls back with. A tag that opens and closes
    at once ([<tr/>]) is an open followed by a close, which is what the
    base class does with it. *)
Inductive event : Type :=
  | StartTag (tag : string) (attrs : list (string * option string))
  | EndTag (tag : string)
  | StartEndTag (tag : string) (attrs : list (string * option string))
  | Data (data : string).

Module KenPomParser.

(** [row] is [None] or a list; [rows] is the list of kept rows. *)
Record KenPomParser : Type := mk {
  row : option (list string);
  rows : list (list string)
}.

Definition __init__ : KenPomParser := {| row := None; rows := [] |}.

Definition handle_starttag (self : KenPomParser) (tag : string)
    (attrs : list (string * option string)) : KenPomParser :=
  if String.eqb tag "tr" then {| row := Some []; rows := rows self |}
  else self.

(** [len(self.row)] is a [TypeError] when [self.row] is [None]. *)
Definition handle_endtag (self : KenPomParser) (tag : string)
    : result KenPomParser :=
  if String.eqb tag "tr" then
    match row self with
    | None => Raise TypeError
    | Some r =>
        if Nat.eqb (length r) 22
        then Ok {| row := None; rows := rows self ++ [drop 1 r] |}
        else Ok {| row := None; rows := rows self |}
    end
  else Ok self.

Definition handle_data (self : KenPomParser) (data : string)
    : KenPomParser :=
  match row self with
  | Some r => {| row := Some (r ++ [data]); rows := rows self |}
  | None => self
  end.

Definition handle (self : KenPomParser) (ev : event)
    : result KenPomParser :=
  match ev with
  | StartTag tag attrs => Ok (handle_starttag self tag attrs)
  | EndTag tag => handle_endtag self tag
  | StartEndTag tag attrs =>
      handle_endtag (handle_starttag self tag attrs) tag
  | Data data => Ok (handle_data self data)
  end.

(** [feed] on a document already cut into events: the handlers run in
    document order and the first exception ends the run. *)
Fixpoint feed (self : KenPomParser) (doc : list event)
    : result KenPomParser :=
  match doc with
  | [] => Ok self
  | ev :: doc' => self' ← handle self ev; feed self' doc'
  end.

End KenPomParser.

(** ** [_create_teams], the record builder *)

(** The body of the loop of [_create_teams]: unpack the row into its 21
    names, split the record, convert, and store the team under its
    name. *)
Definition _create_teams_body (teams : gmap string Team.Team)
    (row : list string) : result (gmap string Team.Team) :=
  match row with
  | [rank; name; conf; rec; e; o; _; d; _; t; _; luck; _;
     o_e; _; o_o; _; o_d; _; nc_o_e; _] =>
      '(wins, losses) ← unpack2 (split "-" rec);
      rank ← or_ValueError (py_int rank);
      wins ← or_ValueError (py_int wins);
      losses ← or_ValueError (py_int losses);
      e ← or_ValueError (py_float e);
      o ← or_ValueError (py_float o);
      d ← or_ValueError (py_float d);
      t ← or_ValueError (py_float t);
      luck ← or_ValueError (py_float luck);
      o_e ← or_ValueError (py_float o_e);
      o_o ← or_ValueError (py_float o_o);
      o_d ← or_ValueError (py_float o_d);
      nc_o_e ← or_ValueError (py_float nc_o_e);
      Ok (<[name := Team.mk rank name conf wins losses
                      e o d t luck o_e o_o o_d nc_o_e]> teams)
  | _ => Raise ValueError
  end.

Fixpoint _create_teams_from (teams : gmap string Team.Team)
    (team_data : list (list string)) : result (gmap string Team.Team) :=
  match team_data with
  | [] => Ok teams
  | row :: team_data' =>
      teams' ← _create_teams_body teams row;
      _create_teams_from teams' team_data'
  end.

Definition _create_teams (team_data : list (list string))
    : result (gmap string Team.Team) :=
  _create_teams_from ∅ team_data.

(** [get], from the page on: [kp_html] is the page already fetched,
    decoded and cut into events by [HTMLParser]. The fetch ([urlopen],
    [read]) and the decoding, with the exceptions they can raise, are not
    modelled. *)
Definition get (kp_html : list event) : result (gmap string Team.Team) :=
  parser ← KenPomParser.feed KenPomParser.__init__ kp_html;
  _create_teams (KenPomParser.rows parser).


(** ** Notions the statements use *)

(** A string of white space only. *)
Fixpoint all_space (s : string) : bool :=
  match s with
  | EmptyString => true
  | String c s' => is_space c && all_space s'
  end.

(** The text events of a run of events, in order. *)
Fixpoint texts (evs : list event) : list string :=
  match evs with
  | [] => []
  | Data data :: evs' => data :: texts evs'
  | _ :: evs' => texts evs'
  end.

(** An event that opens or closes a table row. *)
Definition is_tr (ev : event) : bool :=
  match ev with
  | StartTag tag _ | EndTag tag | StartEndTag tag _ => String.eqb tag "tr"
  | Data _ => false
  end.

(** A run of events with no row tag in it: the inside of a row. *)
Definition row_free (evs : list event) : bool :=
  forallb (fun ev => negb (is_tr ev)) evs.

(** The [Team] the loop of [_create_teams] builds from one row, before
    it is stored: the loop body without its last assignment. *)
Definition team_of_row (row : list string) : result Team.Team :=
  match row with
  | [rank; name; conf; rec; e; o; _; d; _; t; _; luck; _;
     o_e; _; o_o; _; o_d; _; nc_o_e; _] =>
      '(wins, losses) ← unpack2 (split "-" rec);
      rank ← or_ValueError (py_int rank);
      wins ← or_ValueError (py_int wins);
      losses ← or_ValueError (py_int losses);
      e ← or_ValueError (py_float e);
      o ← or_ValueError (py_float o);
      d ← or_ValueError (py_float d);
      t ← or_ValueError (py_float t);
      luck ← or_ValueError (py_float luck);
      o_e ← or_ValueError (py_float o_e);
      o_o ← or_ValueError (py_float o_o);
      o_d ← or_ValueError (py_float o_d);
      nc_o_e ← or_ValueError (py_float nc_o_e);
      Ok (Team.mk rank name conf wins losses e o d t luck o_e o_o o_d nc_o_e)
  | _ => Raise ValueError
  end.

(** Where the numbers of a row are: the rank, and the nine statistics. *)
Definition rank_column : nat := 0.
Definition statistic_columns : list nat := [4; 5; 7; 9; 11; 13; 15; 17; 19]%nat.
Definition numeric_columns : list nat := rank_column :: statistic_columns.

(** The rank of the row is an integer to [int()] and each of its nine
    statistics a number to [float()]. *)
Definition numbers_parse (row : list string) : Prop :=
  is_Some (row !! rank_column ≫= py_int) /\
  Forall (fun i => is_Some (row !! i ≫= py_float)) statistic_columns.

(** A text of white space only, as [int()] and [float()] take white
    space: each of its characters is TAB, LF, VT, FF, CR, the space, or a
    space of Unicode above ASCII. These are the characters with the
    Unicode property White_Space. *)
Definition whitespace (w : string) : bool := all_space (to_ascii w).

(** A comma and the question mark that ends the ASCII text of a [str]
    at a character no number has: what cannot be in a number. *)
Definition foreign (c : ascii) : Prop := c = ","%char \/ c = "?"%char.

(** Some characters written by their bytes: the separator FS, which is
    ASCII, and the no-break space U+00A0, which is not. *)
Definition FS : string := String "028" EmptyString.
Definition NBSP : string := String "194" (String "160" EmptyString).

(** A text of ASCII characters only. *)
Fixpoint is_ascii (s : string) : bool :=
  match s with
  | EmptyString => true
  | String c s' => (code c <? 128) && is_ascii s'
  end.

(** A text of ASCII digits only, and the number its digits write. *)
Fixpoint all_digits (s : string) : bool :=
  match s with
  | EmptyString => true
  | String c s' => is_digit c && all_digits s'
  end.

Fixpoint digits_from (acc : Z) (s : string) : Z :=
  match s with
  | EmptyString => acc
  | String c s' => digits_from (10 * acc + digit_val c) s'
  end.

Definition digits_value (s : string) : Z := digits_from 0 s.

(** The row with white space put around its numeric tokens: [before i]
    and [after i] around the token of column [i]. *)
Definition pad_numbers (before after : nat -> string) (row : list string)
    : list string :=
  imap (fun i tok => if bool_decide (i ∈ numeric_columns)
                     then before i +:+ tok +:+ after i
                     else tok) row.

(** A synthetic page: a table of rows of cells, each cell one text. *)
Definition td (tok : string) : list event :=
  [StartTag "td" []; Data tok; EndTag "td"].

Definition tr (toks : list string) : list event :=
  StartTag "tr" [] :: (toks ≫= td) ++ [EndTag "tr"].

Definition table (trs : list (list string)) : list event :=
  StartTag "table" [] :: (trs ≫= tr) ++ [EndTag "table"].

(** The data row of the end-to-end scenario, and the team it stands for. *)
Definition acme_tokens : list string :=
  ["icon"; "1"; "Acme U"; "Big Conf"; "30-4"; "28.5"; "120.3"; "—"; "95.1";
   "—"; "68.2"; "—"; "0.05"; "—"; "99.0"; "—"; "110.0"; "—"; "90.0"; "—";
   "85.0"; "—"].

Definition acme_team : Team.Team :=
  Team.mk 1 "Acme U" "Big Conf" 30 4
    (binary64 28.5) (binary64 120.3) (binary64 95.1) (binary64 68.2)
    (binary64 0.05) (binary64 99.0) (binary64 110.0) (binary64 90.0)
    (binary64 85.0).

(** The lenient policy in the words of the specification, "skip the row
    and continue", next to the loop of the source. *)
Fixpoint lenient_create_teams_from (teams : gmap string Team.Team)
    (team_data : list (list string)) : gmap string Team.Team :=
  match team_data with
  | [] => teams
  | row :: team_data' =>
      match _create_teams_body teams row with
      | Ok teams' => lenient_create_teams_from teams' team_data'
      | Raise _ => lenient_create_teams_from teams team_data'
      end
  end.

(** The data row with a win-loss token of two hyphens, and with the
    rank 0. *)
Definition malformed_row : list string :=
  <[3%nat := "30-4-2"]> (drop 1 acme_tokens).

Definition rank_zero_row : list string :=
  <[0%nat := "0"]> (drop 1 acme_tokens).

(** The rows a table leaves in the extractor: those of 22 texts, without
    their first text. *)
Definition data_rows (trs : list (list string)) : list (list string) :=
  drop 1 <$> filter (fun toks => length toks = 22%nat) trs.

(** ** Notions of the further properties *)

(** Whether a row is open in the extractor. *)
Definition row_open (self : KenPomParser.KenPomParser) : bool :=
  match KenPomParser.row self with
  | Some _ => true
  | None => false
  end.

(** Whether every closing row tag of a run of events finds a row open,
    [open] telling whether one is open where the run starts. A row tag that
    opens and closes at once opens its own row. *)
Fixpoint closes_open_rows (open : bool) (doc : list event) : bool :=
  match doc with
  | [] => true
  | StartTag tag _ :: doc' =>
      closes_open_rows (if String.eqb tag "tr" then true else open) doc'
  | EndTag tag :: doc' =>
      if String.eqb tag "tr" then open && closes_open_rows false doc'
      else closes_open_rows open doc'
  | StartEndTag tag _ :: doc' =>
      closes_open_rows (if String.eqb tag "tr" then false else open) doc'
  | Data _ :: doc' => closes_open_rows open doc'
  end.

(** The columns of a row the builder binds to [_]. *)
Definition ignored_columns : list nat := [6; 8; 10; 12; 14; 16; 18; 20]%nat.

(** The name tokens of the rows, in order. *)
Definition names (team_data : list (list string)) : list string :=
  omap (fun row => row !! 1%nat) team_data.

(** * Properties *)

(** ** White space *)

Lemma rstrip_cons c s :
  rstrip (String c s) =
  match rstrip s with
  | EmptyString => if is_space c then EmptyString else String c EmptyString
  | r => String c r
  end.
Proof. reflexivity. Qed.

Lemma lstrip_all_space s : all_space s = true -> lstrip s = EmptyString.
Proof.
  induction s as [|c s IH]; simpl; [done|].
  intros [Hc Hs]%andb_prop. rewrite Hc. auto.
Qed.

Lemma rstrip_all_space s : all_space s = true -> rstrip s = EmptyString.
Proof.
  induction s as [|c s IH]; simpl; [done|].
  intros [Hc Hs]%andb_prop. rewrite IH, Hc; done.
Qed.

Lemma lstrip_app_l w s : all_space w = true -> lstrip (w +:+ s) = lstrip s.
Proof.
  induction w as [|c w IH]; simpl; [done|].
  intros [Hc Hw]%andb_prop. rewrite Hc. auto.
Qed.

Lemma rstrip_app_r s w : all_space w = true -> rstrip (s +:+ w) = rstrip s.
Proof.
  intros Hw. induction s as [|c s IH]; simpl.
  - by apply rstrip_all_space.
  - by rewrite IH.
Qed.

Lemma strip_app_r s w : all_space w = true -> strip (s +:+ w) = strip s.
Proof.
  intros Hw. unfold strip. induction s as [|c s IH]; simpl.
  - change (EmptyString +:+ w) with w. by rewrite (lstrip_all_space w).
  - destruct (is_space c); [done|].
    change (String c (s +:+ w)) with (String c s +:+ w).
    by apply rstrip_app_r.
Qed.

(** White space around a token does not survive [strip]. *)
Lemma strip_surrounded w1 s w2 :
  all_space w1 = true -> all_space w2 = true ->
  strip (w1 +:+ s +:+ w2) = strip s.
Proof.
  intros H1 H2. unfold strip at 1. rewrite lstrip_app_l by done.
  by apply strip_app_r.
Qed.

Lemma rstrip_idem s : rstrip (rstrip s) = rstrip s.
Proof.
  induction s as [|c s IH]; simpl; [done|].
  destruct (rstrip s) as [|c' r] eqn:E.
  - destruct (is_space c) eqn:Hc; simpl; [done|]. by rewrite Hc.
  - rewrite rstrip_cons. by rewrite IH.
Qed.

Lemma lstrip_rstrip s : lstrip (rstrip (lstrip s)) = rstrip (lstrip s).
Proof.
  induction s as [|c s IH]; simpl; [done|].
  destruct (is_space c) eqn:Hc; [done|].
  rewrite rstrip_cons. destruct (rstrip s); rewrite ?Hc; simpl; by rewrite Hc.
Qed.

Lemma strip_idem s : strip (strip s) = strip s.
Proof. unfold strip. by rewrite lstrip_rstrip, rstrip_idem. Qed.

(** [strip] adds no character. *)
Lemma contains_lstrip c s :
  contains c (lstrip s) = true -> contains c s = true.
Proof.
  induction s as [|c' s IH]; simpl; [done|].
  destruct (is_space c'); simpl; [|done].
  intros H. rewrite (IH H). apply orb_true_r.
Qed.

Lemma contains_rstrip c s :
  contains c (rstrip s) = true -> contains c s = true.
Proof.
  induction s as [|c' s IH]; simpl; [done|].
  destruct (rstrip s) as [|c'' r].
  - destruct (is_space c'); simpl; [done|].
    rewrite orb_false_r. intros ->. done.
  - change (contains c (String c' (String c'' r)))
      with (Ascii.eqb c' c || contains c (String c'' r)).
    intros [->|H]%orb_prop; [done|]. rewrite (IH H). apply orb_true_r.
Qed.

Lemma contains_strip c s :
  contains c (strip s) = true -> contains c s = true.
Proof. intros H. by apply contains_lstrip, contains_rstrip. Qed.

(** ... and removes nothing but white space. *)
Lemma lstrip_contains c s :
  is_space c = false -> contains c s = true -> contains c (lstrip s) = true.
Proof.
  intros Hc. induction s as [|c' s IH]; simpl; [done|].
  destruct (is_space c') eqn:Hc'; simpl; [|done].
  destruct (Ascii.eqb_spec c' c) as [->|_]; [congruence|done].
Qed.

Lemma rstrip_contains c s :
  is_space c = false -> contains c s = true -> contains c (rstrip s) = true.
Proof.
  intros Hc. induction s as [|c' s IH]; simpl; [done|].
  destruct (Ascii.eqb_spec c' c) as [->|_]; simpl.
  - intros _. destruct (rstrip s); [rewrite Hc|]; simpl;
      by rewrite Ascii.eqb_refl.
  - intros H. specialize (IH H). destruct (rstrip s); [done|].
    change (contains c (String c' (String a s0)))
      with (Ascii.eqb c' c || contains c (String a s0)).
    rewrite IH. apply orb_true_r.
Qed.

Lemma strip_contains c s :
  is_space c = false -> contains c s = true -> contains c (strip s) = true.
Proof. intros Hc H. by apply rstrip_contains, lstrip_contains. Qed.

(** ** Digits and numeric literals *)

Lemma digit_val_range c : is_digit c = true -> 0 <= digit_val c <= 9.
Proof. unfold is_digit, digit_val. lia. Qed.

Lemma digit_neq c c' : is_digit c = true -> is_digit c' = false ->
  Ascii.eqb c c' = false.
Proof. destruct (Ascii.eqb_spec c c') as [->|]; congruence. Qed.

(** What a digit part leaves behind: the value and the count only grow,
    and no character other than a digit or an underscore is used up. *)
Lemma digitpart_rest_spec s : forall acc n v k r,
  digitpart_rest s acc n = (v, k, r) ->
  (0 <= acc -> acc <= v) /\ n <= k /\
  (forall c, is_digit c = false -> Ascii.eqb "_" c = false ->
             contains c r = contains c s).
Proof.
  remember (String.length s) as m eqn:Hm.
  assert (Hle : (String.length s <= m)%nat) by lia. clear Hm.
  revert s Hle. induction m as [|m IH]; intros [|a s] Hle acc n v k r;
    simpl in Hle; try lia; simpl.
  - intros [= <- <- <-]. split_and!; [lia|lia|done].
  - intros [= <- <- <-]. split_and!; [lia|lia|done].
  - destruct (is_digit a) eqn:Ha.
    { intros H. apply IH in H as (H1 & H2 & H3); [|lia].
      pose proof (digit_val_range a Ha). split_and!; [lia|lia|].
      intros c Hc Hu. by rewrite H3, (digit_neq a c). }
    destruct (Ascii.eqb_spec a "_") as [->|_];
      [|intros [= <- <- <-]; split_and!; [lia|lia|done]].
    destruct s as [|a' s']; [intros [= <- <- <-]; split_and!; [lia|lia|done]|].
    destruct (is_digit a') eqn:Ha';
      [|intros [= <- <- <-]; split_and!; [lia|lia|done]].
    intros H. apply IH in H as (H1 & H2 & H3); [|simpl in Hle; lia].
    pose proof (digit_val_range a' Ha'). split_and!; [lia|lia|].
    intros c Hc Hu. simpl. by rewrite H3, Hu, (digit_neq a' c).
Qed.

Lemma digitpart_spec s acc n v k r :
  digitpart s acc n = (v, k, r) ->
  (0 <= acc -> acc <= v) /\ n <= k /\
  (forall c, is_digit c = false -> Ascii.eqb "_" c = false ->
             contains c r = contains c s).
Proof.
  destruct s as [|a s]; simpl.
  - intros [= <- <- <-]. split_and!; [lia|lia|done].
  - destruct (is_digit a) eqn:Ha;
      [|intros [= <- <- <-]; split_and!; [lia|lia|done]].
    intros H. apply digitpart_rest_spec in H as (H1 & H2 & H3).
    pose proof (digit_val_range a Ha). split_and!; [lia|lia|].
    intros c Hc Hu. by rewrite H3, (digit_neq a c).
Qed.

Lemma sign_contains c s neg r :
  Ascii.eqb "-" c = false -> Ascii.eqb "+" c = false ->
  sign s = (neg, r) -> contains c r = contains c s.
Proof.
  intros Hm Hp. destruct s as [|a s]; simpl; [by intros [= <- <-]|].
  destruct (Ascii.eqb_spec a "-") as [->|_];
    [intros [= <- <-]; by rewrite Hm|].
  destruct (Ascii.eqb_spec a "+") as [->|_];
    [intros [= <- <-]; by rewrite Hp|].
  by intros [= <- <-].
Qed.

(** A minus sign is read only where there is one. *)
Lemma sign_minus s r : sign s = (true, r) -> contains "-" s = true.
Proof.
  destruct s as [|a s]; simpl; [done|].
  destruct (Ascii.eqb_spec a "-") as [->|_]; [done|].
  by destruct (Ascii.eqb a "+").
Qed.

(** ** The ASCII text of a [str] *)

Lemma contains_app c a b :
  contains c (a +:+ b) = contains c a || contains c b.
Proof.
  induction a as [|c' a IH]; simpl; [done|]. by rewrite IH, orb_assoc.
Qed.

Lemma all_space_app a b : all_space (a +:+ b) = all_space a && all_space b.
Proof.
  induction a as [|c a IH]; simpl; [done|]. by rewrite IH, andb_assoc.
Qed.

Lemma all_space_contains c w :
  is_space c = false -> all_space w = true -> contains c w = false.
Proof.
  intros Hc. induction w as [|c' w IH]; simpl; [done|].
  intros [Hc' Hw]%andb_prop. rewrite (IH Hw).
  destruct (Ascii.eqb_spec c' c) as [->|_]; [congruence|done].
Qed.

Lemma code_ascii_of d :
  0 <= d <= 9 -> is_digit (ascii_of_N (Z.to_N (48 + d))) = true.
Proof.
  intros Hd.
  assert (d = 0 \/ d = 1 \/ d = 2 \/ d = 3 \/ d = 4 \/ d = 5 \/ d = 6 \/
          d = 7 \/ d = 8 \/ d = 9) as H by lia.
  by repeat (destruct H as [->|H]); [..|subst d].
Qed.

Lemma to_decimal_range cp d : to_decimal cp = Some d -> 0 <= d <= 9.
Proof.
  unfold to_decimal.
  destruct (find _ decimal_zeros) as [z|] eqn:E; [|done].
  intros [= <-]. apply find_some in E as [_ E]. lia.
Qed.

(** A character of the ASCII text is the byte it comes from, a space or
    a digit. *)
Lemma utf8_step_Emit st b c :
  utf8_step st b = Emit c ->
  (st = Start /\ c = b) \/ c = " "%char \/ is_digit c = true.
Proof.
  destruct st as [|more acc low]; unfold utf8_step.
  - destruct (code b <? 128); [intros [= <-]; by left|].
    by repeat (match goal with |- context [if ?x then _ else _] =>
                 destruct x end).
  - destruct ((128 <=? code b) && (code b <=? 191)); [|done].
    destruct more; [|done].
    match goal with |- context [if ?x then _ else _] => destruct x end;
      [|done].
    unfold code_point_to_ascii.
    destruct (is_unicode_space _); [intros [= <-]; right; by left|].
    destruct (to_decimal _) as [d|] eqn:Hd; [|done].
    intros [= <-]. right. right.
    by apply code_ascii_of, (to_decimal_range _ _ Hd).
Qed.

Lemma utf8_step_ascii b :
  (code b <? 128) = true -> utf8_step Start b = Emit b.
Proof. unfold utf8_step. by intros ->. Qed.

(** A byte that goes on inside a character starts none. *)
Lemma utf8_step_Inside more acc low b :
  utf8_step (Inside more acc low) b <> Bad -> utf8_step Start b = Bad.
Proof.
  unfold utf8_step.
  destruct ((128 <=? code b) && (code b <=? 191)) eqn:E; [|done].
  intros _. apply andb_prop in E as [E1 E2].
  replace (code b <? 128) with false by lia.
  replace (194 <=? code b) with false by lia.
  replace (224 <=? code b) with false by lia.
  by replace (240 <=? code b) with false by lia.
Qed.

Lemma utf8_step_foreign st c :
  foreign c -> utf8_step st c = Emit c \/ utf8_step st c = Bad.
Proof.
  intros [-> | ->]; destruct st;
    first [left; reflexivity | right; reflexivity].
Qed.

#[local] Arguments utf8_step : simpl never.

Lemma to_ascii_from_app st w s :
  contains "?" (to_ascii_from st w) = false ->
  to_ascii_from st (w +:+ s) = to_ascii_from st w +:+ to_ascii_from Start s.
Proof.
  revert st. induction w as [|b w IH]; intros st; simpl.
  - by destruct st.
  - destruct (utf8_step st b) as [c|st'|]; simpl; [| |done].
    + intros [_ H]%orb_false_elim. by rewrite IH.
    + apply IH.
Qed.

Lemma to_ascii_from_bad st s w :
  whitespace w = true ->
  contains "?" (to_ascii_from st s) = true ->
  contains "?" (to_ascii_from st (s +:+ w)) = true.
Proof.
  intros Hw. revert st. induction s as [|b s IH]; intros st; simpl.
  - destruct st as [|more acc low]; [done|]. intros _.
    destruct w as [|b w]; [done|]. simpl.
    destruct (utf8_step (Inside more acc low) b) eqn:E; try done;
      exfalso; unfold whitespace, to_ascii in Hw; simpl in Hw;
      rewrite (utf8_step_Inside more acc low b) in Hw by (by rewrite E);
      done.
  - destruct (utf8_step st b) as [c|st'|]; simpl; [| |done].
    + intros [->|H]%orb_prop; [done|]. rewrite IH by done.
      apply orb_true_r.
    + apply IH.
Qed.

Lemma to_ascii_from_contains c st s :
  contains c (to_ascii_from st s) = true ->
  c = "?"%char \/ c = " "%char \/ is_digit c = true \/ contains c s = true.
Proof.
  revert st. induction s as [|b s IH]; intros st; cbn [to_ascii_from].
  - destruct st; [done|]. cbn [contains]. rewrite orb_false_r.
    intros <-%Ascii.eqb_eq. by left.
  - destruct (utf8_step st b) as [c'|st'|] eqn:E; cbn [contains].
    + intros [Hc|H]%orb_prop.
      * apply Ascii.eqb_eq in Hc as ->.
        destruct (utf8_step_Emit _ _ _ E) as [[_ ->]|[->|H]].
        -- do 3 right. by rewrite Ascii.eqb_refl.
        -- right. by left.
        -- right. right. by left.
      * destruct (IH _ H) as [?|[?|[?|H']]]; [by left|right; by left| |].
        -- right. right. by left.
        -- do 3 right. rewrite H'. apply orb_true_r.
    + intros H. destruct (IH _ H) as [?|[?|[?|H']]];
        [by left|right; by left| |].
      * right. right. by left.
      * do 3 right. rewrite H'. apply orb_true_r.
    + rewrite orb_false_r. intros <-%Ascii.eqb_eq. by left.
Qed.

Lemma to_ascii_from_foreign c st s :
  foreign c -> contains c s = true ->
  exists c', foreign c' /\ contains c' (to_ascii_from st s) = true.
Proof.
  intros Hc. revert st. induction s as [|b s IH]; intros st; simpl; [done|].
  destruct (Ascii.eqb_spec b c) as [->|_]; simpl.
  - intros _. destruct (utf8_step_foreign st c Hc) as [-> | ->].
    + exists c. split; [done|]. simpl. by rewrite Ascii.eqb_refl.
    + exists "?"%char. split; [by right|done].
  - intros H. destruct (utf8_step st b) as [c'|st'|].
    + destruct (IH Start H) as (c'' & ? & Hc''). exists c''.
      split; [done|]. simpl. rewrite Hc''. apply orb_true_r.
    + by apply IH.
    + exists "?"%char. split; [by right|done].
Qed.

(** ASCII text is its own ASCII text. *)
Lemma to_ascii_ascii s : is_ascii s = true -> to_ascii s = s.
Proof.
  unfold to_ascii. induction s as [|b s IH]; simpl; [done|].
  intros [Hb Hs]%andb_prop. by rewrite utf8_step_ascii, IH.
Qed.

(** ** Digits and numeric literals, continued *)

Lemma int_literal_nonneg t z :
  contains "-" t = false -> int_literal t = Some z -> 0 <= z.
Proof.
  intros Ht. unfold int_literal.
  destruct (sign (strip t)) as [neg s1] eqn:Hsg. destruct neg.
  { apply sign_minus, contains_strip in Hsg. congruence. }
  destruct (digitpart s1 0 0) as [[v n] r] eqn:Hd.
  apply digitpart_spec in Hd as (Hv & _ & _).
  destruct r; [|done]. destruct ((n =? 0) || _); [done|]. intros [= <-]. lia.
Qed.

(** [int()] of a text without a hyphen is not negative. *)
Lemma py_int_nonneg s z :
  contains "-" s = false -> py_int s = Some z -> 0 <= z.
Proof.
  intros Hs. apply int_literal_nonneg.
  apply not_true_is_false. intros H.
  apply to_ascii_from_contains in H as [?|[?|[?|?]]]; try done. congruence.
Qed.

Lemma int_literal_surrounded w1 t w2 :
  all_space w1 = true -> all_space w2 = true ->
  int_literal (w1 +:+ t +:+ w2) = int_literal t.
Proof. intros H1 H2. unfold int_literal. by rewrite strip_surrounded. Qed.

Lemma float_literal_surrounded w1 t w2 :
  all_space w1 = true -> all_space w2 = true ->
  float_literal (w1 +:+ t +:+ w2) = float_literal t.
Proof. intros H1 H2. unfold float_literal. by rewrite strip_surrounded. Qed.

(** A foreign character is no part of a number: [int()] refuses the
    text ... *)
Lemma int_literal_foreign c t :
  foreign c -> contains c t = true -> int_literal t = None.
Proof.
  intros Hc Ht.
  assert (is_space c = false /\ Ascii.eqb "-" c = false /\
          Ascii.eqb "+" c = false /\ is_digit c = false /\
          Ascii.eqb "_" c = false) as (? & ? & ? & ? & ?)
    by (by destruct Hc as [-> | ->]).
  apply strip_contains in Ht; [|done].
  unfold int_literal. destruct (sign (strip t)) as [neg s1] eqn:Hsg.
  apply (sign_contains c) in Hsg; [|done..].
  destruct (digitpart s1 0 0) as [[v n] r] eqn:Hd.
  apply digitpart_spec in Hd as (_ & _ & Hr).
  specialize (Hr c ltac:(done) ltac:(done)). destruct r; [|done].
  simpl in Hr. congruence.
Qed.

Lemma lower_foreign c a :
  foreign c -> Ascii.eqb (lower a) c = Ascii.eqb a c.
Proof. intros [-> | ->]; by destruct a as [[] [] [] [] [] [] [] []]. Qed.

Lemma contains_lowercase_foreign c s :
  foreign c -> contains c (lowercase s) = contains c s.
Proof.
  intros Hc. induction s as [|a s IH]; simpl; [done|].
  by rewrite IH, lower_foreign.
Qed.

Lemma floatnumber_foreign c s :
  foreign c -> contains c s = true -> floatnumber s = None.
Proof.
  intros Hc Hs.
  assert (Ascii.eqb "-" c = false /\ Ascii.eqb "+" c = false /\
          is_digit c = false /\ Ascii.eqb "_" c = false /\
          Ascii.eqb "." c = false) as (Hm & Hp & Hd1 & Hd2 & Hdot)
    by (by destruct Hc as [-> | ->]).
  unfold floatnumber.
  destruct (digitpart s 0 0) as [[ip ni] s2] eqn:Hd.
  apply digitpart_spec in Hd as (_ & _ & H2).
  specialize (H2 c Hd1 Hd2). rewrite Hs in H2.
  assert (exists m nf s3,
    match s2 with
    | String "." r => digitpart r ip 0
    | _ => (ip, 0, s2)
    end = (m, nf, s3) /\ contains c s3 = true) as (m & nf & s3 & -> & H3).
  { destruct s2 as [|a r]; [done|].
    destruct (Ascii.eqb_spec a ".") as [->|Hne].
    - destruct (digitpart r ip 0) as [[m nf] s3] eqn:Hd.
      apply digitpart_spec in Hd as (_ & _ & H3).
      exists m, nf, s3. split; [done|]. rewrite (H3 c Hd1 Hd2).
      cbn [contains] in H2. by rewrite Hdot in H2.
    - exists ip, 0, (String a r). split; [|done].
      destruct a as [[] [] [] [] [] [] [] []]; done. }
  destruct (ni + nf =? 0); [done|].
  destruct s3 as [|a r]; [done|].
  destruct (Ascii.eqb a "e" || Ascii.eqb a "E") eqn:He; [|done].
  assert (contains c r = true) as Hr.
  { cbn [contains] in H3. destruct (Ascii.eqb_spec a c) as [->|_]; [|done].
    by destruct Hc as [-> | ->]. }
  destruct (sign r) as [eneg r1] eqn:Hsg.
  apply (sign_contains c) in Hsg; [|done..].
  destruct (digitpart r1 0 0) as [[ev ne] r2] eqn:Hd.
  apply digitpart_spec in Hd as (_ & _ & Hr2).
  specialize (Hr2 c Hd1 Hd2). destruct r2; [|done].
  simpl in Hr2. congruence.
Qed.

(** ... and so does [float()]. *)
Lemma float_literal_foreign c t :
  foreign c -> contains c t = true -> float_literal t = None.
Proof.
  intros Hc Ht.
  assert (is_space c = false /\ Ascii.eqb "-" c = false /\
          Ascii.eqb "+" c = false) as (? & ? & ?)
    by (by destruct Hc as [-> | ->]).
  apply strip_contains in Ht; [|done].
  unfold float_literal. destruct (sign (strip t)) as [neg s1] eqn:Hsg.
  apply (sign_contains c) in Hsg; [|done..].
  rewrite (floatnumber_foreign c) by congruence.
  unfold inf_or_nan.
  rewrite <- (contains_lowercase_foreign c), Ht in Hsg by done.
  destruct (String.eqb_spec (lowercase s1) "inf") as [E|_].
  { rewrite E in Hsg. by destruct Hc as [-> | ->]. }
  destruct (String.eqb_spec (lowercase s1) "infinity") as [E|_].
  { rewrite E in Hsg. by destruct Hc as [-> | ->]. }
  destruct (String.eqb_spec (lowercase s1) "nan") as [E|_]; [|done].
  rewrite E in Hsg. by destruct Hc as [-> | ->].
Qed.

Lemma py_int_comma s : contains "," s = true -> py_int s = None.
Proof.
  intros Hs.
  destruct (to_ascii_from_foreign "," Start s) as (c & Hc & H);
    [by left|done|]. by apply (int_literal_foreign c).
Qed.

Lemma py_float_comma s : contains "," s = true -> py_float s = None.
Proof.
  intros Hs.
  destruct (to_ascii_from_foreign "," Start s) as (c & Hc & H);
    [by left|done|]. by apply (float_literal_foreign c).
Qed.

(** White space around a token, of ASCII or not, changes nothing. *)
Lemma to_ascii_surrounded w1 s w2 :
  whitespace w1 = true -> whitespace w2 = true ->
  (contains "?" (to_ascii s) = false /\
   to_ascii (w1 +:+ s +:+ w2) = to_ascii w1 +:+ to_ascii s +:+ to_ascii w2)
  \/
  (contains "?" (to_ascii s) = true /\
   contains "?" (to_ascii (w1 +:+ s +:+ w2)) = true).
Proof.
  intros H1 H2. unfold to_ascii.
  rewrite (to_ascii_from_app Start w1) by (by apply all_space_contains).
  destruct (contains "?" (to_ascii_from Start s)) eqn:E.
  - right. split; [done|]. rewrite contains_app.
    rewrite (to_ascii_from_bad Start s w2) by done. apply orb_true_r.
  - left. split; [done|]. by rewrite (to_ascii_from_app Start s).
Qed.

Lemma py_int_surrounded w1 s w2 :
  whitespace w1 = true -> whitespace w2 = true ->
  py_int (w1 +:+ s +:+ w2) = py_int s.
Proof.
  intros H1 H2. unfold py_int.
  destruct (to_ascii_surrounded w1 s w2 H1 H2) as [[_ ->]|[E E']].
  - by apply int_literal_surrounded.
  - rewrite (int_literal_foreign "?" _ (or_intror eq_refl) E').
    by rewrite (int_literal_foreign "?" _ (or_intror eq_refl) E).
Qed.

Lemma py_float_surrounded w1 s w2 :
  whitespace w1 = true -> whitespace w2 = true ->
  py_float (w1 +:+ s +:+ w2) = py_float s.
Proof.
  intros H1 H2. unfold py_float.
  destruct (to_ascii_surrounded w1 s w2 H1 H2) as [[_ ->]|[E E']].
  - by apply float_literal_surrounded.
  - rewrite (float_literal_foreign "?" _ (or_intror eq_refl) E').
    by rewrite (float_literal_foreign "?" _ (or_intror eq_refl) E).
Qed.

(** ** The row extractor *)

Lemma feed_app self doc1 doc2 :
  KenPomParser.feed self (doc1 ++ doc2) =
  self' ← KenPomParser.feed self doc1; KenPomParser.feed self' doc2.
Proof.
  revert self. induction doc1 as [|ev doc1 IH]; intros self; simpl; [done|].
  destruct (KenPomParser.handle self ev); simpl; [apply IH|done].
Qed.

(** Inside an open row every text is added to the buffer and nothing
    else changes. *)
Lemma feed_row_free body : forall rows r,
  row_free body = true ->
  KenPomParser.feed (KenPomParser.mk (Some r) rows) body =
  Ok (KenPomParser.mk (Some (r ++ texts body)) rows).
Proof.
  induction body as [|ev body IH]; intros rows r; simpl.
  - by rewrite app_nil_r.
  - intros [Hev Hbody]%andb_prop. apply negb_true_iff in Hev.
    destruct ev as [tag attrs|tag|tag attrs|data]; simpl in Hev |- *.
    + unfold KenPomParser.handle_starttag. rewrite Hev. simpl. by apply IH.
    + unfold KenPomParser.handle_endtag. rewrite Hev. simpl. by apply IH.
    + unfold KenPomParser.handle_endtag, KenPomParser.handle_starttag.
      rewrite Hev. simpl. by apply IH.
    + unfold KenPomParser.handle_data. simpl. rewrite IH by done.
      by rewrite <- app_assoc.
Qed.

(** One row, from its opening tag to its closing tag, from any state. *)
Lemma feed_one_row self attrs body :
  row_free body = true ->
  KenPomParser.feed self (StartTag "tr" attrs :: body ++ [EndTag "tr"]) =
  Ok (KenPomParser.mk None
        (if Nat.eqb (length (texts body)) 22
         then KenPomParser.rows self ++ [drop 1 (texts body)]
         else KenPomParser.rows self)).
Proof.
  intros Hbody. cbn [KenPomParser.feed KenPomParser.handle].
  unfold KenPomParser.handle_starttag. simpl.
  rewrite feed_app, feed_row_free by done. simpl.
  unfold KenPomParser.handle_endtag. simpl.
  by destruct (Nat.eqb (length (texts body)) 22).
Qed.

(** C3: a table row that is well nested in the stream (its opening tag,
    texts and other tags but no row tag, its closing tag) with exactly 22
    texts adds these texts minus the first, 21 of them, to the end of the
    kept rows; with any other number of texts it adds nothing; in both
    cases the extractor goes on with the rest of the stream, no row open,
    and no exception raised by the row. *)
Theorem well_nested_row (self s1 : KenPomParser.KenPomParser)
    (before body after : list event) (attrs : list (string * option string)) :
  KenPomParser.feed self before = Ok s1 ->
  row_free body = true ->
  let doc := before ++ StartTag "tr" attrs :: body ++ EndTag "tr" :: after in
  (length (texts body) = 22%nat ->
     length (drop 1 (texts body)) = 21%nat /\
     KenPomParser.feed self doc =
     KenPomParser.feed
       (KenPomParser.mk None (KenPomParser.rows s1 ++ [drop 1 (texts body)]))
       after) /\
  (length (texts body) <> 22%nat ->
     KenPomParser.feed self doc =
     KenPomParser.feed (KenPomParser.mk None (KenPomParser.rows s1)) after).
Proof.
  intros Hbefore Hbody doc.
  assert (KenPomParser.feed self doc =
          s2 ← KenPomParser.feed s1
                 (StartTag "tr" attrs :: body ++ [EndTag "tr"]);
          KenPomParser.feed s2 after) as Hdoc.
  { unfold doc. rewrite feed_app, Hbefore.
    change (Ok s1 ≫= ?f) with (f s1). cbv beta.
    replace (StartTag "tr" attrs :: body ++ EndTag "tr" :: after)
      with ((StartTag "tr" attrs :: body ++ [EndTag "tr"]) ++ after)
      by (simpl; by rewrite <- app_assoc).
    by rewrite feed_app. }
  rewrite Hdoc, feed_one_row by done. split.
  - intros Hlen. split; [rewrite length_drop; lia|].
    by rewrite Hlen.
  - intros Hlen. apply Nat.eqb_neq in Hlen. by rewrite Hlen.
Qed.

Lemma well_nested_row_witness :
  KenPomParser.feed KenPomParser.__init__ (table [acme_tokens]) =
    Ok (KenPomParser.mk None [drop 1 acme_tokens]) /\
  KenPomParser.feed KenPomParser.__init__ (table [["Rk"; "Team"]]) =
    Ok (KenPomParser.mk None []).
Proof.
  split.
  - exact (eq_trans
      (proj2 (proj1 (well_nested_row KenPomParser.__init__
                       KenPomParser.__init__ [StartTag "table" []]
                       (acme_tokens ≫= td) [EndTag "table"] []
                       eq_refl eq_refl) eq_refl)) eq_refl).
  - refine (eq_trans
      (proj2 (well_nested_row KenPomParser.__init__
                KenPomParser.__init__ [StartTag "table" []]
                (["Rk"; "Team"] ≫= td) [EndTag "table"] []
                eq_refl eq_refl) _) eq_refl).
    simpl. lia.
Defined.

(** C2: a closing row tag met while no row is open raises [TypeError]
    ([len] of [None]) instead of leaving the state as it is; a page that
    starts with such a tag makes [feed], and with it [get], fail. *)
Theorem endtag_without_row (rows : list (list string)) :
  KenPomParser.handle_endtag (KenPomParser.mk None rows) "tr" =
    Raise TypeError /\
  KenPomParser.feed KenPomParser.__init__ [EndTag "tr"] = Raise TypeError /\
  get [EndTag "tr"] = Raise TypeError.
Proof. done. Qed.

(** ** [split] *)

Lemma split_length sep s : length (split sep s) = S (count sep s).
Proof.
  induction s as [|c s IH]; simpl; [done|].
  destruct (Ascii.eqb c sep); simpl; [by rewrite IH|].
  destruct (split sep s); simpl in *; [lia|done].
Qed.

Lemma split_contains sep s :
  Forall (fun piece => contains sep piece = false) (split sep s).
Proof.
  induction s as [|c s IH]; simpl; [by constructor|].
  destruct (Ascii.eqb c sep) eqn:Hc; [by constructor|].
  destruct (split sep s) as [|piece pieces]; [constructor; simpl|].
  - by rewrite Hc.
  - constructor.
  - inversion IH; subst. constructor; [simpl; by rewrite Hc|done].
Qed.

Lemma split_without sep s : contains sep s = false -> split sep s = [s].
Proof.
  induction s as [|c s IH]; simpl; [done|].
  intros [Hc Hs]%orb_false_elim. rewrite Hc, IH; done.
Qed.

Lemma split_app sep a b :
  contains sep a = false ->
  split sep (a +:+ String sep b) = a :: split sep b.
Proof.
  induction a as [|c a IH]; simpl.
  - by rewrite Ascii.eqb_refl.
  - intros [Hc Ha]%orb_false_elim. rewrite Hc, IH; done.
Qed.

Lemma count_app c a b : count c (a +:+ b) = (count c a + count c b)%nat.
Proof.
  induction a as [|c' a IH]; simpl; [done|].
  destruct (Ascii.eqb c' c); simpl; lia.
Qed.

Lemma count_0_contains c s : count c s = 0%nat <-> contains c s = false.
Proof.
  induction s as [|c' s IH]; simpl; [done|].
  destruct (Ascii.eqb c' c); simpl; [split; discriminate|done].
Qed.

(** With one separator in it, a text splits into what is before and what
    is after it. *)
Lemma split_one sep a b :
  count sep (a +:+ String sep b) = 1%nat ->
  split sep (a +:+ String sep b) = [a; b] /\
  contains sep a = false /\ contains sep b = false.
Proof.
  rewrite count_app. simpl. rewrite Ascii.eqb_refl. intros H.
  assert (contains sep a = false) by (apply count_0_contains; lia).
  assert (contains sep b = false) by (apply count_0_contains; lia).
  by rewrite split_app, split_without.
Qed.

Lemma count_1_split sep s :
  count sep s = 1%nat -> exists a b, s = a +:+ String sep b.
Proof.
  induction s as [|c s IH]; simpl; [done|].
  destruct (Ascii.eqb_spec c sep) as [->|_].
  - intros _. by exists EmptyString, s.
  - intros (a & b & ->)%IH. by exists (String c a), b.
Qed.

Lemma split_two sep s a b :
  split sep s = [a; b] ->
  s = a +:+ String sep b /\ count sep s = 1%nat /\
  contains sep a = false /\ contains sep b = false.
Proof.
  intros H. pose proof (split_length sep s) as Hlen. rewrite H in Hlen.
  simpl in Hlen. assert (count sep s = 1%nat) as Hc by lia.
  destruct (count_1_split sep s Hc) as (a' & b' & ->).
  destruct (split_one sep a' b' Hc) as (H' & Ha & Hb).
  rewrite H' in H. by injection H as <- <-.
Qed.

(** ** One row of the record builder *)

Ltac run := eexists; vm_compute; reflexivity.

Ltac bind_step := cbn [or_ValueError unpack2 mbind result_bind].

Ltac parse_step tac :=
  match goal with
  | |- context [or_ValueError ?x] => destruct x eqn:?; bind_step; [|tac]
  end.

Ltac row_cases row tac :=
  do 21 (destruct row as [|? row]; [tac|]);
  (destruct row as [|? row]; [|tac]).

(** The loop body stores the team of the row under its name. *)
Lemma body_team_of_row teams row :
  _create_teams_body teams row =
  team ← team_of_row row; Ok (<[Team.name team := team]> teams).
Proof.
  row_cases row ltac:(done). unfold _create_teams_body, team_of_row.
  destruct (unpack2 (split "-" s2)) as [[wins losses]|]; bind_step; [|done].
  repeat parse_step ltac:(done). done.
Qed.

(** Whatever goes wrong in a row is a [ValueError]. *)
Lemma team_of_row_Raise row e : team_of_row row = Raise e -> e = ValueError.
Proof.
  row_cases row ltac:(by intros [= <-]). unfold team_of_row.
  destruct (split "-" s2) as [|a [|b [|]]]; bind_step; try by intros [= <-].
  repeat parse_step ltac:(by intros [= <-]). done.
Qed.

(** What a row that converts tells about its tokens. *)
Lemma team_of_row_Ok row team :
  team_of_row row = Ok team ->
  length row = 21%nat /\
  (exists rec a b,
     row !! 3%nat = Some rec /\ split "-" rec = [a; b] /\
     py_int a = Some (Team.wins team) /\
     py_int b = Some (Team.losses team)) /\
  row !! 0%nat ≫= py_int = Some (Team.rank team) /\
  row !! 1%nat = Some (Team.name team) /\
  row !! 2%nat = Some (Team.conference team) /\
  row !! 4%nat ≫= py_float = Some (Team.efficiency team) /\
  row !! 5%nat ≫= py_float = Some (Team.offense team) /\
  row !! 7%nat ≫= py_float = Some (Team.defense team) /\
  row !! 9%nat ≫= py_float = Some (Team.tempo team) /\
  row !! 11%nat ≫= py_float = Some (Team.luck team) /\
  row !! 13%nat ≫= py_float = Some (Team.opponent_efficiency team) /\
  row !! 15%nat ≫= py_float = Some (Team.opponent_offense team) /\
  row !! 17%nat ≫= py_float = Some (Team.opponent_defense team) /\
  row !! 19%nat ≫= py_float =
    Some (Team.nonconference_opponent_efficiency team).
Proof.
  row_cases row ltac:(done). unfold team_of_row.
  destruct (split "-" s2) as [|a [|b [|]]] eqn:Hsplit; bind_step; try done.
  repeat parse_step ltac:(done). intros [= <-].
  split; [done|]. split; [by exists s2, a, b|]. by split_and!.
Qed.

(** A row of 21 tokens converts as soon as its record splits in two
    integers and its numbers parse. *)
Lemma team_of_row_parses row rec a b w l :
  length row = 21%nat -> row !! 3%nat = Some rec ->
  split "-" rec = [a; b] -> py_int a = Some w -> py_int b = Some l ->
  numbers_parse row ->
  exists team, team_of_row row = Ok team /\
               Team.wins team = w /\ Team.losses team = l.
Proof.
  intros Hlen Hrec Hsplit Ha Hb [[rk Hrk] Hstats].
  row_cases row ltac:(done). injection Hrec as ->.
  unfold statistic_columns in Hstats. rewrite !Forall_cons in Hstats.
  destruct Hstats as ([? H4] & [? H5] & [? H7] & [? H9] & [? H11] & [? H13]
                      & [? H15] & [? H17] & [? H19] & _).
  simpl in Hrk, H4, H5, H7, H9, H11, H13, H15, H17, H19.
  unfold team_of_row.
  rewrite Hsplit. bind_step.
  rewrite Hrk, Ha, Hb, H4, H5, H7, H9, H11, H13, H15, H17, H19.
  bind_step. eauto.
Qed.

(** ** The loop of the record builder *)

Lemma create_from_cons teams row team_data :
  _create_teams_from teams (row :: team_data) =
  team ← team_of_row row;
  _create_teams_from (<[Team.name team := team]> teams) team_data.
Proof.
  simpl. rewrite body_team_of_row. by destruct (team_of_row row).
Qed.

Lemma create_from_app teams data1 data2 :
  _create_teams_from teams (data1 ++ data2) =
  teams' ← _create_teams_from teams data1; _create_teams_from teams' data2.
Proof.
  revert teams. induction data1 as [|row data1 IH]; intros teams; [done|].
  rewrite <- app_comm_cons, !create_from_cons.
  destruct (team_of_row row); simpl; [apply IH|done].
Qed.

(** The first row that does not convert ends the loop with its
    [ValueError], whatever was built so far. *)
Lemma create_from_Exists teams team_data :
  Exists (fun row => ~ is_Ok (team_of_row row)) team_data ->
  _create_teams_from teams team_data = Raise ValueError.
Proof.
  revert teams. induction team_data as [|row team_data IH]; intros teams H.
  - inversion H.
  - rewrite create_from_cons. destruct (team_of_row row) as [team|e] eqn:E.
    + simpl. apply IH. inversion H as [?? Hbad|]; subst; [|done].
      destruct Hbad. by exists team.
    + simpl. by rewrite (team_of_row_Raise row e).
Qed.

Lemma create_from_Forall teams team_data :
  Forall (fun row => is_Ok (team_of_row row)) team_data ->
  is_Ok (_create_teams_from teams team_data).
Proof.
  revert teams. induction team_data as [|row team_data IH]; intros teams H.
  - by exists teams.
  - rewrite create_from_cons. inversion H as [|?? [team E] Hrest]; subst.
    rewrite E. simpl. by apply IH.
Qed.

(** Every team of the result was there before or comes from a row, and
    is stored under its own name. *)
Lemma create_from_lookup team_data : forall teams m n team,
  _create_teams_from teams team_data = Ok m ->
  m !! n = Some team ->
  teams !! n = Some team \/
  exists row, row ∈ team_data /\ team_of_row row = Ok team /\
              Team.name team = n.
Proof.
  induction team_data as [|row team_data IH]; intros teams m n team.
  - intros [= <-]. by left.
  - rewrite create_from_cons. destruct (team_of_row row) as [t|] eqn:E; [|done].
    simpl. intros Hm Hn. destruct (IH _ _ _ _ Hm Hn) as [H|(r & ? & ? & ?)].
    + destruct (decide (Team.name t = n)) as [<-|Hne].
      * rewrite lookup_insert_eq in H. injection H as <-.
        right. exists row. split; [left|done].
      * rewrite lookup_insert_ne in H by done. by left.
    + right. exists r. split; [by right|done].
Qed.

(** Rows of other names leave the entry of a name alone. *)
Lemma create_from_other n team_data : forall teams m,
  Forall (fun row => row !! 1%nat <> Some n) team_data ->
  _create_teams_from teams team_data = Ok m ->
  m !! n = teams !! n.
Proof.
  induction team_data as [|row team_data IH]; intros teams m Hn.
  - by intros [= <-].
  - rewrite create_from_cons. destruct (team_of_row row) as [t|] eqn:E; [|done].
    simpl. inversion Hn as [|?? Hrow Hrest]; subst. intros Hm.
    rewrite (IH _ _ Hrest Hm). apply lookup_insert_ne. intros <-.
    apply team_of_row_Ok in E as (_ & _ & _ & Hname & _). congruence.
Qed.

(** One key, one entry. *)
Lemma filter_fresh (kvs : list (string * Team.Team)) n :
  n ∉ kvs.*1 -> filter (fun kv => kv.1 = n) kvs = [].
Proof.
  induction kvs as [|[k v] kvs IH]; [done|].
  rewrite fmap_cons, not_elem_of_cons. simpl. intros [Hne Hn].
  rewrite filter_cons_False by (simpl; congruence). by apply IH.
Qed.

Lemma one_entry_list (kvs : list (string * Team.Team)) n team :
  NoDup kvs.*1 -> (n, team) ∈ kvs ->
  length (filter (fun kv => kv.1 = n) kvs) = 1%nat.
Proof.
  induction kvs as [|[k v] kvs IH]; intros Hnd Hin.
  - by apply elem_of_nil in Hin.
  - rewrite fmap_cons in Hnd. apply NoDup_cons in Hnd as [Hk Hnd].
    simpl in Hk. destruct (decide (k = n)) as [->|Hne].
    + rewrite filter_cons_True by done. simpl. by rewrite filter_fresh.
    + rewrite filter_cons_False by done. apply IH; [done|].
      apply elem_of_cons in Hin as [[=]|]; [congruence|done].
Qed.

Lemma one_entry (m : gmap string Team.Team) n team :
  m !! n = Some team ->
  length (filter (fun kv => kv.1 = n) (map_to_list m)) = 1%nat.
Proof.
  intros Hn. apply (one_entry_list _ n team).
  - apply NoDup_fst_map_to_list.
  - by apply elem_of_map_to_list.
Qed.

(** ** The record builder *)

Lemma create_one row :
  _create_teams [row] =
  team ← team_of_row row; Ok {[ Team.name team := team ]}.
Proof.
  unfold _create_teams. rewrite create_from_cons.
  by destruct (team_of_row row).
Qed.

Lemma create_acme :
  _create_teams [drop 1 acme_tokens] = Ok {[ "Acme U" := acme_team ]}.
Proof. vm_compute; reflexivity. Qed.

(** C1: the [record] of a team the builder made is no string: [join] is
    given the two integers and raises [TypeError]. So it is for the team
    of the row ["1"; "Acme U"; "Big Conf"; "30-4"; ...], whose [record]
    is not ["30-4"], and for every team with integer wins and losses. *)
Theorem record_raises_TypeError :
  _create_teams [drop 1 acme_tokens] = Ok {[ "Acme U" := acme_team ]} /\
  Team.record acme_team = Raise TypeError /\
  Team.record acme_team <> Ok "30-4" /\
  forall team, Team.record team = Raise TypeError.
Proof. split; [apply create_acme|done]. Qed.

(** C4: in a row of 21 tokens the win-loss token is split at its hyphen
    and both sides go through [int()]. When the token has not exactly one
    hyphen, or one side of the hyphen is no integer, the row raises
    [ValueError] (the ParseError of the builder). When it has exactly one
    hyphen and both sides are integers, the split gives these two sides,
    both integers are at least 0, and the row converts (its rank and
    statistics being numbers) into a team with these wins and losses: in a
    row whose other numbers parse, the failure is equivalent to a
    malformed win-loss token. *)
Theorem win_loss_token (teams : gmap string Team.Team)
    (row : list string) (rec : string) :
  length row = 21%nat -> row !! 3%nat = Some rec ->
  let malformed :=
    count "-" rec <> 1%nat \/
    exists a b, rec = a +:+ "-" +:+ b /\ (py_int a = None \/ py_int b = None)
  in
  (malformed -> _create_teams_body teams row = Raise ValueError) /\
  (forall a b w l,
     count "-" rec = 1%nat -> rec = a +:+ "-" +:+ b ->
     py_int a = Some w -> py_int b = Some l ->
     split "-" rec = [a; b] /\ 0 <= w /\ 0 <= l /\
     (numbers_parse row ->
      exists team,
        _create_teams_body teams row = Ok (<[Team.name team := team]> teams)
        /\ Team.wins team = w /\ Team.losses team = l)) /\
  (numbers_parse row ->
   (_create_teams_body teams row = Raise ValueError <-> malformed)).
Proof.
  intros Hlen Hrec malformed.
  assert (Hbad : malformed -> team_of_row row = Raise ValueError).
  { intros Hm. destruct (team_of_row row) as [team|e] eqn:E;
      [exfalso|by rewrite (team_of_row_Raise row e)].
    apply team_of_row_Ok in E
      as (_ & (rec' & a' & b' & Hrec' & Hsplit & Ha' & Hb') & _).
    assert (rec' = rec) as -> by congruence.
    destruct (split_two _ _ _ _ Hsplit) as (_ & Hcount & _).
    destruct Hm as [Hm|(a & b & Hab & Hm)]; [done|].
    change ("-" +:+ b) with (String "-" b) in Hab.
    rewrite Hab in Hcount, Hsplit.
    destruct (split_one "-" a b Hcount) as (Hsplit' & _).
    rewrite Hsplit' in Hsplit. injection Hsplit as <- <-.
    destruct Hm; congruence. }
  assert (Hgood : forall a b w l,
     count "-" rec = 1%nat -> rec = a +:+ "-" +:+ b ->
     py_int a = Some w -> py_int b = Some l ->
     split "-" rec = [a; b] /\ 0 <= w /\ 0 <= l /\
     (numbers_parse row ->
      exists team, team_of_row row = Ok team /\
                   Team.wins team = w /\ Team.losses team = l)).
  { intros a b w l Hcount -> Ha Hb.
    destruct (split_one "-" a b Hcount) as (Hsplit & Hna & Hnb).
    split; [done|]. split; [by apply (py_int_nonneg a)|].
    split; [by apply (py_int_nonneg b)|].
    intros Hnum.
    by apply (team_of_row_parses row (a +:+ String "-" b) a b). }
  split_and!.
  - intros Hm. by rewrite body_team_of_row, Hbad.
  - intros a b w l Hcount Heq Ha Hb.
    destruct (Hgood a b w l Hcount Heq Ha Hb) as (? & ? & ? & Hteam).
    split_and!; [done..|]. intros Hnum.
    destruct (Hteam Hnum) as (team & E & ? & ?). exists team.
    by rewrite body_team_of_row, E.
  - intros Hnum. split; [|intros Hm; by rewrite body_team_of_row, Hbad].
    rewrite body_team_of_row. intros Hraise.
    destruct (decide (count "-" rec = 1%nat)) as [Hcount|]; [|by left].
    right. destruct (count_1_split "-" rec Hcount) as (a & b & Heq).
    exists a, b. split; [done|].
    destruct (py_int a) as [w|] eqn:Ha; [|by left].
    destruct (py_int b) as [l|] eqn:Hb; [|by right].
    destruct (Hgood a b w l Hcount Heq Ha Hb) as (_ & _ & _ & Hteam).
    destruct (Hteam Hnum) as (team & E & _). by rewrite E in Hraise.
Qed.

Lemma win_loss_token_witness :
  (exists team,
     _create_teams_body ∅ (drop 1 acme_tokens) =
       Ok (<[Team.name team := team]> ∅) /\
     Team.wins team = 30 /\ Team.losses team = 4) /\
  _create_teams_body ∅ malformed_row = Raise ValueError.
Proof.
  split.
  - refine (proj2 (proj2 (proj2
      (proj1 (proj2 (win_loss_token ∅ (drop 1 acme_tokens) "30-4"
                       eq_refl eq_refl))
         "30" "4" 30 4 eq_refl eq_refl eq_refl eq_refl))) _).
    split; [run|]. repeat constructor; run.
  - refine (proj1 (win_loss_token ∅ malformed_row "30-4-2" eq_refl eq_refl) _).
    left. vm_compute. lia.
Defined.

Lemma create_one_Ok row :
  is_Ok (_create_teams [row]) <-> is_Ok (team_of_row row).
Proof.
  rewrite create_one. destruct (team_of_row row) as [team|e]; simpl.
  - split; intros _; by eexists.
  - split; by intros [? ?].
Qed.

(** C5 (as the code has it): the builder has one behaviour and no
    setting to choose another. Whenever a row of the input does not
    convert, [_create_teams] raises [ValueError] and returns no mapping,
    and so does [get] on a page with such a row; when every row converts,
    a mapping is returned. *)
Theorem always_fail_fast (team_data : list (list string)) :
  (Exists (fun row => ~ is_Ok (_create_teams [row])) team_data ->
   _create_teams team_data = Raise ValueError /\
   forall kp_html parser,
     KenPomParser.feed KenPomParser.__init__ kp_html = Ok parser ->
     KenPomParser.rows parser = team_data ->
     get kp_html = Raise ValueError) /\
  (Forall (fun row => is_Ok (_create_teams [row])) team_data ->
   is_Ok (_create_teams team_data)).
Proof.
  split.
  - intros Hbad.
    assert (_create_teams team_data = Raise ValueError) as Hraise.
    { apply create_from_Exists. eapply Exists_impl; [exact Hbad|].
      intros row Hrow. by rewrite <- create_one_Ok. }
    split; [done|]. intros kp_html parser Hfeed Hrows.
    unfold get. rewrite Hfeed. simpl. by rewrite Hrows.
  - intros Hall. apply create_from_Forall. eapply Forall_impl; [exact Hall|].
    intros row. by rewrite create_one_Ok.
Qed.

Lemma always_fail_fast_witness :
  _create_teams [drop 1 acme_tokens; malformed_row] = Raise ValueError /\
  is_Ok (_create_teams [drop 1 acme_tokens]).
Proof.
  split.
  - refine (proj1 (proj1 (always_fail_fast
                            [drop 1 acme_tokens; malformed_row]) _)).
    apply Exists_cons_tl, Exists_cons_hd. by intros [? [=]].
  - refine (proj2 (always_fail_fast [drop 1 acme_tokens]) _).
    constructor; [|constructor]. run.
Defined.

(** C5 (as stated) fails: on a malformed row followed by a good one the
    builder raises, where the lenient policy of the specification would
    return the mapping of the good row. *)
Lemma no_lenient_policy :
  _create_teams [malformed_row; drop 1 acme_tokens] = Raise ValueError /\
  lenient_create_teams_from ∅ [malformed_row; drop 1 acme_tokens] =
    {[ "Acme U" := acme_team ]} /\
  _create_teams [malformed_row; drop 1 acme_tokens] <>
    Ok (lenient_create_teams_from ∅ [malformed_row; drop 1 acme_tokens]).
Proof. split_and!; [vm_compute; reflexivity|vm_compute; reflexivity|by intros [=]]. Qed.




(** C10: when every row converts, the mapping has, for a name, exactly
    one entry, and it is the team of the last row with that name token:
    the rows before it, of the same name or not, leave no trace under that
    name. *)
Theorem last_row_wins (before after : list (list string))
    (row : list string) (n : string) (team : Team.Team) :
  Forall (fun r => is_Ok (_create_teams [r])) (before ++ row :: after) ->
  _create_teams [row] = Ok {[ n := team ]} ->
  Forall (fun r => r !! 1%nat <> Some n) after ->
  exists m,
    _create_teams (before ++ row :: after) = Ok m /\
    m !! n = Some team /\
    length (filter (fun kv => kv.1 = n) (map_to_list m)) = 1%nat.
Proof.
  intros Hall Hrow Hafter.
  rewrite create_one in Hrow.
  destruct (team_of_row row) as [t|] eqn:E; [|done]. simpl in Hrow.
  apply (f_equal (fun r => match r with
                           | Ok m => m !! n
                           | Raise _ => None
                           end)) in Hrow.
  rewrite lookup_singleton_eq in Hrow.
  apply lookup_singleton_Some in Hrow as [Hname ->].
  apply Forall_app in Hall as [Hbefore Hrest].
  apply Forall_cons in Hrest as [_ Hrest].
  destruct (create_from_Forall ∅ before) as [m1 Hm1].
  { eapply Forall_impl; [exact Hbefore|]. intros r. by rewrite create_one_Ok. }
  destruct (create_from_Forall (<[n := team]> m1) after) as [m Hm].
  { eapply Forall_impl; [exact Hrest|]. intros r. by rewrite create_one_Ok. }
  assert (m !! n = Some team) as Hlookup.
  { rewrite (create_from_other _ _ _ _ Hafter Hm). apply lookup_insert_eq. }
  exists m. split_and!; [|done|by apply (one_entry m _ team)].
  unfold _create_teams. rewrite create_from_app, Hm1.
  change (Ok m1 ≫= ?f) with (f m1). cbv beta.
  rewrite create_from_cons, E. change (Ok team ≫= ?f) with (f team).
  cbv beta. by rewrite Hname.
Qed.

Lemma last_row_wins_witness :
  exists m,
    _create_teams
      ([<[4%nat := "1.5"]> (drop 1 acme_tokens)] ++ drop 1 acme_tokens ::
       [<[1%nat := "Zenith"]> (drop 1 acme_tokens)]) = Ok m /\
    m !! "Acme U" = Some acme_team /\
    length (filter (fun kv => kv.1 = "Acme U") (map_to_list m)) = 1%nat.
Proof.
  apply (last_row_wins [<[4%nat := "1.5"]> (drop 1 acme_tokens)]
           [<[1%nat := "Zenith"]> (drop 1 acme_tokens)]
           (drop 1 acme_tokens) "Acme U" acme_team).
  - repeat constructor; run.
  - vm_compute; reflexivity.
  - repeat constructor. by intros [=].
Defined.

(** ** Numeric coercion *)

Lemma body_not_numbers teams row :
  length row = 21%nat -> ~ numbers_parse row ->
  _create_teams_body teams row = Raise ValueError.
Proof.
  intros Hlen Hnum. rewrite body_team_of_row.
  destruct (team_of_row row) as [team|e] eqn:E;
    [|by rewrite (team_of_row_Raise row e)].
  destruct Hnum. apply team_of_row_Ok in E.
  destruct E as (_ & _ & H0 & _ & _ & H4 & H5 & H7 & H9 & H11 & H13 & H15
                 & H17 & H19).
  split; [by eexists|]. repeat constructor; by eexists.
Qed.

Lemma body_pad_numbers teams before after row :
  (forall i, whitespace (before i) = true /\ whitespace (after i) = true) ->
  _create_teams_body teams (pad_numbers before after row) =
  _create_teams_body teams row.
Proof.
  intros Hws. row_cases row ltac:(done).
  match goal with
  | |- context [pad_numbers before after ?r] =>
      let r' := eval cbv -[String.append] in (pad_numbers before after r) in
      change (pad_numbers before after r) with r'
  end.
  unfold _create_teams_body.
  by rewrite !py_int_surrounded, !py_float_surrounded by apply Hws.
Qed.

(** Digits are no white space, and neither is the point. *)
Lemma is_digit_not_space c : is_digit c = true -> is_space c = false.
Proof. unfold is_digit, is_space. lia. Qed.

Lemma all_digits_app a b : all_digits (a +:+ b) = all_digits a && all_digits b.
Proof.
  induction a as [|c a IH]; simpl; [done|]. by rewrite IH, andb_assoc.
Qed.

Lemma all_digits_contains c ds :
  all_digits ds = true -> contains c ds = true -> is_digit c = true.
Proof.
  induction ds as [|a ds IH]; simpl; [done|].
  intros [Ha Hds]%andb_prop.
  destruct (Ascii.eqb_spec a c) as [<-|_]; [done|]. by apply IH.
Qed.

Lemma all_digits_ascii ds : all_digits ds = true -> is_ascii ds = true.
Proof.
  induction ds as [|a ds IH]; simpl; [done|].
  intros [Ha Hds]%andb_prop. rewrite IH by done.
  unfold is_digit in Ha. apply andb_true_intro. split; [lia|done].
Qed.

Lemma is_ascii_app a b : is_ascii (a +:+ b) = is_ascii a && is_ascii b.
Proof.
  induction a as [|c a IH]; simpl; [done|]. by rewrite IH, andb_assoc.
Qed.

Lemma digits_from_app acc a b :
  digits_from acc (a +:+ b) = digits_from (digits_from acc a) b.
Proof. revert acc. induction a as [|c a IH]; intros acc; simpl; [done|]. apply IH. Qed.

Lemma length_append a b :
  String.length (a +:+ b) = (String.length a + String.length b)%nat.
Proof. induction a as [|c a IH]; simpl; [done|]. by rewrite IH. Qed.

(** A text with no white space at its ends is left as it is. *)
Lemma strip_id s :
  (forall c, contains c s = true -> is_space c = false) -> strip s = s.
Proof.
  intros Hs. unfold strip.
  assert (lstrip s = s) as ->.
  { destruct s as [|a s]; [done|]. simpl.
    rewrite (Hs a); [done|]. simpl. by rewrite Ascii.eqb_refl. }
  induction s as [|a s IH]; [done|]. rewrite rstrip_cons, IH.
  - destruct s; [|done]. rewrite (Hs a); [done|].
    simpl. by rewrite Ascii.eqb_refl.
  - intros c Hc. apply Hs. simpl. rewrite Hc. apply orb_true_r.
Qed.

(** A run of digits is read to its end, and no further when what
    follows is neither a digit nor an underscore. *)
Lemma digitpart_rest_digits ds rest : forall acc n,
  all_digits ds = true ->
  (rest = EmptyString \/
   exists c r, rest = String c r /\ is_digit c = false /\
               Ascii.eqb c "_" = false) ->
  digitpart_rest (ds +:+ rest) acc n =
  (digits_from acc ds, n + Z.of_nat (String.length ds), rest).
Proof.
  induction ds as [|a ds IH]; intros acc n Hds Hrest.
  - change (EmptyString +:+ rest) with rest. simpl.
    rewrite Z.add_0_r. destruct Hrest as [->|(c & r & -> & Hc & Hu)]; [done|].
    simpl. by rewrite Hc, Hu.
  - simpl in Hds. apply andb_prop in Hds as [Ha Hds]. simpl. rewrite Ha.
    rewrite IH by done. f_equal. f_equal. lia.
Qed.

Lemma digitpart_digits ds rest acc n :
  all_digits ds = true ->
  (rest = EmptyString \/
   exists c r, rest = String c r /\ is_digit c = false /\
               Ascii.eqb c "_" = false) ->
  digitpart (ds +:+ rest) acc n =
  (digits_from acc ds, n + Z.of_nat (String.length ds), rest).
Proof.
  intros Hds Hrest. destruct ds as [|a ds].
  - change (EmptyString +:+ rest) with rest. simpl.
    rewrite Z.add_0_r. destruct Hrest as [->|(c & r & -> & Hc & _)]; [done|].
    simpl. by rewrite Hc.
  - simpl in Hds. apply andb_prop in Hds as [Ha Hds]. simpl. rewrite Ha.
    rewrite digitpart_rest_digits by done. f_equal. f_equal. lia.
Qed.

Lemma append_empty_r s : s +:+ EmptyString = s.
Proof.
  induction s as [|c s IH]; [done|].
  change (String c s +:+ EmptyString) with (String c (s +:+ EmptyString)).
  by rewrite IH.
Qed.

(** [int()] reads a run of ASCII digits as the number they write. *)
Lemma int_literal_digits ds :
  all_digits ds = true -> ds <> EmptyString ->
  (String.length ds <= 4300)%nat ->
  int_literal ds = Some (digits_value ds).
Proof.
  intros Hds Hne Hlen. unfold int_literal. rewrite strip_id.
  2:{ intros c Hc. by apply is_digit_not_space, (all_digits_contains c ds). }
  assert (sign ds = (false, ds)) as ->.
  { destruct ds as [|a ds]; [done|]. simpl in Hds |- *.
    apply andb_prop in Hds as [Ha _].
    destruct (Ascii.eqb_spec a "-") as [->|_]; [done|].
    by destruct (Ascii.eqb_spec a "+") as [->|_]. }
  rewrite <- (append_empty_r ds) at 1.
  rewrite digitpart_digits by (done || by left).
  assert (0 < Z.of_nat (String.length ds))
    by (destruct ds; [done|simpl String.length; lia]).
  rewrite (proj2 (Z.eqb_neq _ _)) by lia.
  by rewrite (proj2 (Z.ltb_ge _ _)) by (unfold int_max_str_digits; lia).
Qed.

(** [float()] reads digits, a point and digits as the decimal they
    write, rounded to the nearest binary64. *)
Lemma float_literal_decimal ip fp :
  all_digits ip = true -> all_digits fp = true ->
  ip +:+ fp <> EmptyString ->
  float_literal (ip +:+ "." +:+ fp) =
  Some (nearest_binary64 false (digits_value (ip +:+ fp))
          (- Z.of_nat (String.length fp))).
Proof.
  intros Hip Hfp Hne. unfold float_literal. rewrite strip_id.
  2:{ intros c. rewrite contains_app. cbn [String.append contains].
      intros [H|[H|H]%orb_prop]%orb_prop.
      - by apply is_digit_not_space, (all_digits_contains c ip).
      - by apply Ascii.eqb_eq in H as <-.
      - by apply is_digit_not_space, (all_digits_contains c fp). }
  assert (sign (ip +:+ "." +:+ fp) = (false, ip +:+ "." +:+ fp)) as ->.
  { destruct ip as [|a ip]; [done|]. simpl in Hip |- *.
    apply andb_prop in Hip as [Ha _].
    destruct (Ascii.eqb_spec a "-") as [->|_]; [done|].
    by destruct (Ascii.eqb_spec a "+") as [->|_]. }
  unfold floatnumber.
  rewrite (digitpart_digits ip ("." +:+ fp)); [|done|].
  2:{ right. by exists "."%char, fp. }
  change ("." +:+ fp) with (String "." fp). cbv iota beta.
  rewrite <- (append_empty_r fp) at 1.
  rewrite digitpart_digits by (done || by left).
  rewrite (proj2 (Z.eqb_neq _ 0)).
  2:{ destruct ip, fp; simpl String.length; try lia. done. }
  unfold digits_value. by rewrite digits_from_app, Z.add_0_l.
Qed.

Lemma py_int_digits ds :
  all_digits ds = true -> ds <> EmptyString ->
  (String.length ds <= 4300)%nat ->
  py_int ds = Some (digits_value ds).
Proof.
  intros Hds Hne Hlen. unfold py_int.
  rewrite to_ascii_ascii by (by apply all_digits_ascii).
  by apply int_literal_digits.
Qed.

Lemma py_float_decimal ip fp :
  all_digits ip = true -> all_digits fp = true ->
  ip +:+ fp <> EmptyString ->
  py_float (ip +:+ "." +:+ fp) =
  Some (nearest_binary64 false (digits_value (ip +:+ fp))
          (- Z.of_nat (String.length fp))).
Proof.
  intros Hip Hfp Hne. unfold py_float. rewrite to_ascii_ascii.
  - by apply float_literal_decimal.
  - rewrite is_ascii_app. apply andb_true_intro.
    split; [by apply all_digits_ascii|]. simpl.
    by apply all_digits_ascii.
Qed.

(** A few tokens as [int()] and [float()] read them. White space is
    skipped, of ASCII or not, but the separator FS is none; the digits
    of other scripts count; a single underscore between two digits is
    part of a number; more than 4300 digits are too many for [int()]. *)
Example py_int_examples :
  py_int "30" = Some 30 /\ py_int "  030 " = Some 30 /\
  py_int "-5" = Some (-5) /\ py_int "1_000" = Some 1000 /\
  py_int (NBSP +:+ "12" +:+ NBSP) = Some 12 /\
  py_int "３０" = Some 30 /\ py_int "٣٠" = Some 30 /\
  py_int (FS +:+ "12") = None /\ py_int ("-" +:+ NBSP +:+ "5") = None /\
  py_int "1,000" = None /\ py_int "1__0" = None /\ py_int "" = None /\
  py_int "3.0" = None /\ py_int "- 5" = None /\ py_int "−5" = None /\
  py_int "30é" = None.
Proof. by vm_compute. Qed.

Example py_float_examples :
  py_float "28.5" = Some (binary64 28.5) /\
  py_float " 0.05 " = Some (binary64 0.05) /\
  py_float (NBSP +:+ "2.5") = Some (binary64 2.5) /\
  py_float "２.５" = Some (binary64 2.5) /\
  py_float "1e3" = Some (binary64 1000) /\
  py_float ".5" = Some (binary64 0.5) /\
  py_float "-1_0." = Some (binary64 (-10)) /\
  py_float "-Inf" = Some (S754_infinity true) /\
  py_float "1e400" = Some (S754_infinity false) /\
  py_float (FS +:+ "2.5") = None /\
  py_float "1,234.5" = None /\ py_float "N/A" = None /\
  py_float "1e" = None /\ py_float "." = None.
Proof. by vm_compute. Qed.

(** C7: the rank goes through [int()] and the nine statistics through
    [float()], and both skip the white space around a token (TAB, LF,
    VT, FF, CR, the space, and the spaces of Unicode above ASCII): a
    token with white space around it is read as the token without it,
    digits as the number they write and a decimal as its binary64 value,
    and the row with white space around its numeric tokens gives what
    the row without it gives. A token with a comma in it, the thousands
    separator, is no number to either, and a row of 21 tokens with such a
    token where a number is due, or with any token there that is no
    number, raises [ValueError] (the ParseError of the builder); a row
    of 21 tokens whose numeric tokens are numbers, its win-loss token
    being well formed, converts. *)
Theorem numeric_coercion :
  (forall w1 s w2, whitespace w1 = true -> whitespace w2 = true ->
     py_int (w1 +:+ s +:+ w2) = py_int s /\
     py_float (w1 +:+ s +:+ w2) = py_float s) /\
  (forall w1 ds w2, whitespace w1 = true -> whitespace w2 = true ->
     all_digits ds = true -> ds <> EmptyString ->
     (String.length ds <= 4300)%nat ->
     py_int (w1 +:+ ds +:+ w2) = Some (digits_value ds)) /\
  (forall w1 ip fp w2, whitespace w1 = true -> whitespace w2 = true ->
     all_digits ip = true -> all_digits fp = true ->
     ip +:+ fp <> EmptyString ->
     py_float (w1 +:+ (ip +:+ "." +:+ fp) +:+ w2) =
     Some (nearest_binary64 false (digits_value (ip +:+ fp))
             (- Z.of_nat (String.length fp)))) /\
  (forall teams before after row,
     (forall i, whitespace (before i) = true /\
                whitespace (after i) = true) ->
     _create_teams_body teams (pad_numbers before after row) =
     _create_teams_body teams row) /\
  (forall s, contains "," s = true -> py_int s = None /\ py_float s = None) /\
  (forall teams row i tok,
     length row = 21%nat -> i ∈ numeric_columns -> row !! i = Some tok ->
     contains "," tok = true ->
     _create_teams_body teams row = Raise ValueError) /\
  (forall teams row,
     length row = 21%nat -> ~ numbers_parse row ->
     _create_teams_body teams row = Raise ValueError) /\
  (forall teams row rec a b w l,
     length row = 21%nat -> row !! 3%nat = Some rec ->
     split "-" rec = [a; b] -> py_int a = Some w -> py_int b = Some l ->
     numbers_parse row ->
     is_Ok (_create_teams_body teams row)).
Proof.
  split_and!.
  - intros w1 s w2 H1 H2.
    by rewrite py_int_surrounded, py_float_surrounded.
  - intros w1 ds w2 H1 H2 Hds Hne Hlen.
    rewrite py_int_surrounded by done. by apply py_int_digits.
  - intros w1 ip fp w2 H1 H2 Hip Hfp Hne.
    rewrite py_float_surrounded by done. by apply py_float_decimal.
  - apply body_pad_numbers.
  - intros s Hs. by rewrite py_int_comma, py_float_comma.
  - intros teams row i tok Hlen Hi Htok Hcomma.
    apply body_not_numbers; [done|]. intros [[z Hrank] Hstats].
    apply elem_of_cons in Hi as [->|Hi].
    + rewrite Htok in Hrank. simpl in Hrank.
      by rewrite py_int_comma in Hrank.
    + rewrite Forall_forall in Hstats. destruct (Hstats i Hi) as [x Hx].
      rewrite Htok in Hx. simpl in Hx. by rewrite py_float_comma in Hx.
  - apply body_not_numbers.
  - intros teams row rec a b w l Hlen Hrec Hsplit Ha Hb Hnum.
    destruct (team_of_row_parses row rec a b w l) as (team & E & _);
      [done..|].
    rewrite body_team_of_row, E. by eexists.
Qed.

Lemma numeric_coercion_witness :
  (py_int (NBSP +:+ "12" +:+ " ") = py_int "12" /\
   py_float (NBSP +:+ "28.5" +:+ " ") = py_float "28.5") /\
  py_int (NBSP +:+ "12" +:+ " ") = Some 12 /\
  py_float (" " +:+ ("28" +:+ "." +:+ "5") +:+ NBSP) = Some (binary64 28.5) /\
  _create_teams_body ∅
    (pad_numbers (fun _ => NBSP) (fun _ => " ") (drop 1 acme_tokens)) =
    _create_teams_body ∅ (drop 1 acme_tokens) /\
  (py_int "1,234" = None /\ py_float "1,234" = None) /\
  _create_teams_body ∅ (<[0%nat := "1,234"]> (drop 1 acme_tokens)) =
    Raise ValueError /\
  _create_teams_body ∅ (<[4%nat := "N/A"]> (drop 1 acme_tokens)) =
    Raise ValueError /\
  is_Ok (_create_teams_body ∅ (drop 1 acme_tokens)).
Proof.
  pose proof numeric_coercion
    as (Hpad & Hint & Hfloat & Hrowpad & Hcomma & Hrow & Hbad & Hgood).
  split_and!.
  - exact (proj1 (Hpad NBSP "12" " " eq_refl eq_refl)).
  - exact (proj2 (Hpad NBSP "28.5" " " eq_refl eq_refl)).
  - apply (Hint NBSP "12" " "); [done..|simpl; lia].
  - exact (Hfloat " " "28" "5" NBSP eq_refl eq_refl eq_refl eq_refl
             ltac:(discriminate)).
  - by apply Hrowpad.
  - exact (proj1 (Hcomma "1,234" eq_refl)).
  - exact (proj2 (Hcomma "1,234" eq_refl)).
  - apply (Hrow ∅ _ 0%nat "1,234"); [done| |done|done].
    apply elem_of_cons. by left.
  - apply Hbad; [done|]. intros [_ Hstats].
    apply Forall_cons in Hstats as [[x Hx] _]. vm_compute in Hx.
    discriminate Hx.
  - apply (Hgood ∅ _ "30-4" "30" "4" 30 4); [done..|].
    split; [run|]. repeat constructor; run.
Defined.

(** ** A whole page *)

Lemma texts_td toks : texts (toks ≫= td) = toks.
Proof. induction toks as [|tok toks IH]; simpl; [done|]. by f_equal. Qed.

Lemma row_free_td toks : row_free (toks ≫= td) = true.
Proof. by induction toks as [|tok toks IH]. Qed.

Lemma feed_tr self toks :
  KenPomParser.feed self (tr toks) =
  Ok (KenPomParser.mk None
        (if Nat.eqb (length toks) 22
         then KenPomParser.rows self ++ [drop 1 toks]
         else KenPomParser.rows self)).
Proof.
  unfold tr. rewrite feed_one_row by apply row_free_td.
  by rewrite texts_td.
Qed.

Lemma data_rows_cons toks trs :
  data_rows (toks :: trs) =
  if Nat.eqb (length toks) 22 then drop 1 toks :: data_rows trs
  else data_rows trs.
Proof.
  unfold data_rows. destruct (Nat.eqb_spec (length toks) 22).
  - by rewrite filter_cons_True.
  - by rewrite filter_cons_False.
Qed.

(** The rows of a table: the extractor keeps its rows of 22 texts, each
    without its first text, in the order of the page. *)
Lemma feed_trs trs : forall self,
  KenPomParser.feed self (trs ≫= tr) =
  Ok (KenPomParser.mk
        (match trs with [] => KenPomParser.row self | _ => None end)
        (KenPomParser.rows self ++ data_rows trs)).
Proof.
  induction trs as [|toks trs IH]; intros [r rows].
  - simpl. by rewrite app_nil_r.
  - change ((toks :: trs) ≫= tr) with (tr toks ++ (trs ≫= tr)).
    rewrite feed_app, feed_tr. change (Ok ?x ≫= ?f) with (f x). cbv beta.
    rewrite IH, data_rows_cons. simpl.
    destruct (Nat.eqb (length toks) 22); [|by destruct trs].
    rewrite <- app_assoc. by destruct trs.
Qed.

Lemma feed_table trs :
  KenPomParser.feed KenPomParser.__init__ (table trs) =
  Ok (KenPomParser.mk None (data_rows trs)).
Proof.
  unfold table. cbn [KenPomParser.feed KenPomParser.handle].
  change (KenPomParser.handle_starttag KenPomParser.__init__ "table" [])
    with KenPomParser.__init__.
  change (Ok ?x ≫= ?f) with (f x). cbv beta.
  rewrite feed_app, feed_trs. by destruct trs.
Qed.

(** C6: the page of one table with a header row of fewer than 22 texts
    and the data row of the scenario gives a mapping with the one key
    ["Acme U"], and under it the team of rank 1, conference "Big Conf",
    30 wins, 4 losses and the nine statistics of the row, each the
    binary64 value of its decimal. *)
Theorem end_to_end (header : list string) :
  (length header < 22)%nat ->
  get (table [header; acme_tokens]) =
  Ok {[ "Acme U" :=
          Team.mk 1 "Acme U" "Big Conf" 30 4
            (binary64 28.5) (binary64 120.3) (binary64 95.1)
            (binary64 68.2) (binary64 0.05) (binary64 99.0)
            (binary64 110.0) (binary64 90.0) (binary64 85.0) ]}.
Proof.
  intros Hlen. unfold get. rewrite feed_table.
  change (Ok ?x ≫= ?f) with (f x). cbv beta.
  rewrite !data_rows_cons.
  replace (Nat.eqb (length header) 22) with false
    by (symmetry; apply Nat.eqb_neq; lia).
  exact create_acme.
Qed.

Lemma end_to_end_witness :
  get (table [["Rk"; "Team"; "Conf"; "W-L"]; acme_tokens]) =
  Ok {[ "Acme U" := acme_team ]}.
Proof.
  apply (end_to_end ["Rk"; "Team"; "Conf"; "W-L"]). simpl. lia.
Defined.

(** ** The aliases of [Team] *)

(** C9: on every [Team], each short name reads the field of its long
    name: [d] is [defense], [e] is [efficiency], [l] is [losses],
    [nc_o_e] is [nonconference_opponent_efficiency], [o] is [offense],
    [o_d] is [opponent_defense], [o_e] is [opponent_efficiency], [o_o] is
    [opponent_offense], [t] is [tempo] and [w] is [wins]. *)
Theorem alias_consistency (team : Team.Team) :
  Team.d team = Team.defense team /\
  Team.e team = Team.efficiency team /\
  Team.l team = Team.losses team /\
  Team.nc_o_e team = Team.nonconference_opponent_efficiency team /\
  Team.o team = Team.offense team /\
  Team.o_d team = Team.opponent_defense team /\
  Team.o_e team = Team.opponent_efficiency team /\
  Team.o_o team = Team.opponent_offense team /\
  Team.t team = Team.tempo team /\
  Team.w team = Team.wins team.
Proof. repeat split. Qed.


(** * Further properties *)

(** ** The extractor on any stream *)

Lemma handle_row_open self ev self' :
  KenPomParser.handle self ev = Ok self' ->
  row_open self' =
  match ev with
  | StartTag tag _ => if String.eqb tag "tr" then true else row_open self
  | EndTag tag | StartEndTag tag _ =>
      if String.eqb tag "tr" then false else row_open self
  | Data _ => row_open self
  end.
Proof.
  destruct self as [r rows], ev as [tag attrs|tag|tag attrs|data]; simpl.
  - unfold KenPomParser.handle_starttag. intros [= <-].
    by destruct (String.eqb tag "tr").
  - unfold KenPomParser.handle_endtag. destruct (String.eqb tag "tr");
      [|by intros [= <-]]. simpl. destruct r as [r|]; [|done].
    by destruct (Nat.eqb (length r) 22); intros [= <-].
  - unfold KenPomParser.handle_endtag, KenPomParser.handle_starttag.
    destruct (String.eqb tag "tr"); simpl; by intros [= <-].
  - unfold KenPomParser.handle_data. intros [= <-]. by destruct r.
Qed.

Lemma handle_Ok_iff self ev :
  is_Ok (KenPomParser.handle self ev) <->
  match ev with
  | EndTag tag => String.eqb tag "tr" = true -> row_open self = true
  | _ => True
  end.
Proof.
  destruct self as [r rows], ev as [tag attrs|tag|tag attrs|data]; simpl.
  - split; [done|]. intros _. by eexists.
  - unfold KenPomParser.handle_endtag, row_open. simpl.
    destruct (String.eqb tag "tr"); [|split; [done|by eexists]].
    destruct r as [r|].
    + split; [done|]. intros _. destruct (Nat.eqb (length r) 22); by eexists.
    + split; [by intros [? [=]]|]. intros H. by specialize (H eq_refl).
  - split; [done|]. intros _.
    unfold KenPomParser.handle_endtag, KenPomParser.handle_starttag.
    destruct (String.eqb tag "tr"); simpl; by eexists.
  - split; [done|]. intros _. by eexists.
Qed.

Lemma handle_Raise self ev e :
  KenPomParser.handle self ev = Raise e -> e = TypeError.
Proof.
  destruct self as [r rows], ev as [tag attrs|tag|tag attrs|data]; simpl;
    try done.
  - unfold KenPomParser.handle_endtag. simpl.
    destruct (String.eqb tag "tr"); [|done]. destruct r as [r|].
    + by destruct (Nat.eqb (length r) 22).
    + by intros [= <-].
  - unfold KenPomParser.handle_endtag, KenPomParser.handle_starttag.
    by destruct (String.eqb tag "tr").
Qed.

Lemma feed_closes_open_rows (self : KenPomParser.KenPomParser)
    (doc : list event) :
  (is_Ok (KenPomParser.feed self doc) <->
   closes_open_rows (row_open self) doc = true) /\
  (forall e, KenPomParser.feed self doc = Raise e -> e = TypeError).
Proof.
  revert self. induction doc as [|ev doc IH]; intros self.
  { split; [|done]. split; [done|]. intros _. by eexists. }
  cbn [KenPomParser.feed].
  destruct (KenPomParser.handle self ev) as [self'|e'] eqn:E.
  - change (Ok self' ≫= ?f) with (f self'). cbv beta.
    destruct (IH self') as [IH1 IH2]. split; [|done].
    rewrite IH1, (handle_row_open _ _ _ E).
    assert (is_Ok (KenPomParser.handle self ev)) as Hok by by eexists.
    apply handle_Ok_iff in Hok.
    destruct ev as [tag attrs|tag|tag attrs|data]; simpl; try done.
    destruct (String.eqb tag "tr"); [|done].
    rewrite (Hok eq_refl). done.
  - split; [|intros e [= <-]; by apply (handle_Raise self ev)].
    split; [by intros [? [=]]|]. intros Hc. exfalso.
    assert (~ is_Ok (KenPomParser.handle self ev)) as Hbad
      by (rewrite E; by intros [? [=]]).
    apply Hbad, handle_Ok_iff.
    destruct ev as [tag attrs|tag|tag attrs|data]; try done.
    simpl in Hc. intros Htr. rewrite Htr in Hc.
    by apply andb_prop in Hc as [? _].
Qed.

(** X1: the extractor fails on a stream exactly when a closing row tag
    arrives while no row is open (none opened yet, or the last one closed
    already), and the failure is always [TypeError]; every other stream,
    however its tags nest, is read to the end. *)
Theorem feed_fails_iff (self : KenPomParser.KenPomParser) (doc : list event) :
  (is_Ok (KenPomParser.feed self doc) <->
   closes_open_rows (row_open self) doc = true) /\
  (forall e, KenPomParser.feed self doc = Raise e -> e = TypeError).
Proof. apply feed_closes_open_rows. Qed.

Lemma feed_fails_iff_witness :
  is_Ok (KenPomParser.feed KenPomParser.__init__
           [StartTag "tr" []; StartTag "tr" []; Data "x"; EndTag "tr"]) /\
  KenPomParser.feed KenPomParser.__init__
    [StartTag "tr" []; EndTag "tr"; EndTag "tr"] = Raise TypeError.
Proof.
  split.
  - exact (proj2 (proj1 (feed_fails_iff KenPomParser.__init__
             [StartTag "tr" []; StartTag "tr" []; Data "x"; EndTag "tr"]))
             eq_refl).
  - destruct (KenPomParser.feed KenPomParser.__init__
                [StartTag "tr" []; EndTag "tr"; EndTag "tr"]) as [p|e] eqn:E.
    + discriminate E.
    + f_equal. exact (proj2 (feed_fails_iff KenPomParser.__init__
             [StartTag "tr" []; EndTag "tr"; EndTag "tr"]) e E).
Defined.

Lemma handle_rows self ev self' :
  KenPomParser.handle self ev = Ok self' ->
  KenPomParser.rows self' = KenPomParser.rows self \/
  exists r, length r = 22%nat /\
            KenPomParser.rows self' = KenPomParser.rows self ++ [drop 1 r].
Proof.
  destruct self as [r rows], ev as [tag attrs|tag|tag attrs|data]; simpl.
  - unfold KenPomParser.handle_starttag. intros [= <-]. left.
    by destruct (String.eqb tag "tr").
  - unfold KenPomParser.handle_endtag. destruct (String.eqb tag "tr");
      [|intros [= <-]; by left]. simpl. destruct r as [r|]; [|done].
    destruct (Nat.eqb_spec (length r) 22); intros [= <-]; [right|by left].
    by exists r.
  - unfold KenPomParser.handle_endtag, KenPomParser.handle_starttag.
    destruct (String.eqb tag "tr"); simpl; intros [= <-]; by left.
  - unfold KenPomParser.handle_data. intros [= <-]. left. by destruct r.
Qed.

(** X2: whatever the stream, the extractor only adds rows of 21 texts:
    when the kept rows all have 21 texts before a run of events, they all
    have 21 after it, so every row [get] hands to the builder has the
    width the builder unpacks. *)
Theorem kept_rows_have_21 (self p : KenPomParser.KenPomParser)
    (doc : list event) :
  Forall (fun r => length r = 21%nat) (KenPomParser.rows self) ->
  KenPomParser.feed self doc = Ok p ->
  Forall (fun r => length r = 21%nat) (KenPomParser.rows p).
Proof.
  revert self. induction doc as [|ev doc IH]; intros self Hself.
  { by intros [= <-]. }
  cbn [KenPomParser.feed].
  destruct (KenPomParser.handle self ev) as [self'|] eqn:E; [|done].
  apply IH. destruct (handle_rows _ _ _ E) as [->|(r & Hr & ->)]; [done|].
  apply Forall_app. split; [done|]. constructor; [|done].
  rewrite length_drop. lia.
Qed.

Lemma kept_rows_have_21_witness :
  Forall (fun r => length r = 21%nat)
    [drop 1 acme_tokens].
Proof.
  exact (kept_rows_have_21 KenPomParser.__init__
           (KenPomParser.mk None [drop 1 acme_tokens])
           (table [["Rk"]; acme_tokens]) (Forall_nil_2 _) eq_refl).
Defined.

(** X3: the extractor never drops or reorders a row it has kept: after
    any run of events the rows kept before are a prefix of the rows kept
    after. *)
Theorem kept_rows_only_grow (self p : KenPomParser.KenPomParser)
    (doc : list event) :
  KenPomParser.feed self doc = Ok p ->
  KenPomParser.rows self `prefix_of` KenPomParser.rows p.
Proof.
  revert self. induction doc as [|ev doc IH]; intros self.
  { by intros [= <-]. }
  cbn [KenPomParser.feed].
  destruct (KenPomParser.handle self ev) as [self'|] eqn:E; [|done].
  intros Hp. etrans; [|by apply (IH self')].
  destruct (handle_rows _ _ _ E) as [->|(r & _ & ->)]; [done|].
  by apply prefix_app_r.
Qed.

Lemma kept_rows_only_grow_witness :
  [["kept"]] `prefix_of` [["kept"]; drop 1 acme_tokens].
Proof.
  exact (kept_rows_only_grow (KenPomParser.mk None [["kept"]])
           (KenPomParser.mk None [["kept"]; drop 1 acme_tokens])
           (tr acme_tokens) eq_refl).
Defined.

(** X4: rows do not nest: a row tag that opens while a row is open
    throws away what that row has collected, so a row that is never
    closed leaves nothing behind. *)
Theorem open_row_discarded (self : KenPomParser.KenPomParser)
    (attrs attrs' : list (string * option string))
    (body rest : list event) :
  row_free body = true ->
  KenPomParser.feed self
    (StartTag "tr" attrs :: body ++ StartTag "tr" attrs' :: rest) =
  KenPomParser.feed self (StartTag "tr" attrs' :: rest).
Proof.
  intros Hbody. cbn [KenPomParser.feed KenPomParser.handle].
  unfold KenPomParser.handle_starttag. simpl String.eqb. cbv iota.
  change (Ok ?x ≫= ?f) with (f x). cbv beta.
  rewrite feed_app, feed_row_free by done.
  change (Ok ?x ≫= ?f) with (f x). cbv beta.
  cbn [KenPomParser.feed KenPomParser.handle].
  unfold KenPomParser.handle_starttag. simpl String.eqb. cbv iota.
  by change (Ok ?x ≫= ?f) with (f x).
Qed.

Lemma open_row_discarded_witness :
  KenPomParser.feed KenPomParser.__init__
    (StartTag "tr" [] :: (acme_tokens ≫= td) ++
     StartTag "tr" [] :: [Data "x"; EndTag "tr"]) =
  Ok (KenPomParser.mk None []).
Proof.
  exact (eq_trans (open_row_discarded KenPomParser.__init__ [] []
                     (acme_tokens ≫= td) [Data "x"; EndTag "tr"] eq_refl)
                  eq_refl).
Defined.

(** X5: outside a row nothing is collected: with no row open, texts and
    tags other than the row tag leave the extractor as it is. *)
Theorem outside_rows_ignored (self : KenPomParser.KenPomParser)
    (evs : list event) :
  KenPomParser.row self = None -> row_free evs = true ->
  KenPomParser.feed self evs = Ok self.
Proof.
  intros Hrow. induction evs as [|ev evs IH]; [done|].
  simpl. intros [Hev Hevs]%andb_prop. apply negb_true_iff in Hev.
  destruct self as [r rows]. simpl in Hrow. subst r.
  destruct ev as [tag attrs|tag|tag attrs|data]; simpl in Hev |- *.
  - unfold KenPomParser.handle_starttag. rewrite Hev. by apply IH.
  - unfold KenPomParser.handle_endtag. rewrite Hev. by apply IH.
  - unfold KenPomParser.handle_endtag, KenPomParser.handle_starttag.
    rewrite Hev. simpl. by apply IH.
  - by apply IH.
Qed.

Lemma outside_rows_ignored_witness :
  KenPomParser.feed KenPomParser.__init__
    [StartTag "h1" []; Data "Ratings"; EndTag "h1"; Data "30-4"] =
  Ok KenPomParser.__init__.
Proof.
  exact (outside_rows_ignored KenPomParser.__init__
           [StartTag "h1" []; Data "Ratings"; EndTag "h1"; Data "30-4"]
           eq_refl eq_refl).
Defined.

(** ** A table, and a page without data *)

(** X6: of a table, the extractor keeps the rows of 22 texts, each
    without its first text, in the order of the page, and drops every
    other row; [get] on the table is the builder on these rows. *)
Theorem table_data_rows (trs : list (list string)) :
  KenPomParser.feed KenPomParser.__init__ (table trs) =
    Ok (KenPomParser.mk None (data_rows trs)) /\
  get (table trs) = _create_teams (data_rows trs).
Proof.
  split; [apply feed_table|]. unfold get. by rewrite feed_table.
Qed.

(** X7: a page none of whose rows has 22 texts gives the empty mapping
    and no error: a changed table layout is not told from a table
    without teams. *)
Theorem page_without_data_rows (trs : list (list string)) :
  Forall (fun toks => length toks <> 22%nat) trs ->
  get (table trs) = Ok ∅.
Proof.
  intros Htrs. unfold get. rewrite feed_table.
  change (Ok ?x ≫= ?f) with (f x). cbv beta. simpl.
  replace (data_rows trs) with (@nil (list string)); [done|].
  symmetry. induction Htrs as [|toks trs Htoks _ IH]; [done|].
  rewrite data_rows_cons. apply Nat.eqb_neq in Htoks. by rewrite Htoks.
Qed.

Lemma page_without_data_rows_witness :
  get (table [["Rk"; "Team"]; drop 1 acme_tokens; []]) = Ok ∅.
Proof.
  apply page_without_data_rows. repeat constructor; simpl; lia.
Defined.

(** ** The builder on any rows *)


(** X8: a row that has not 21 tokens cannot be unpacked: wherever it is
    in the input, the builder raises [ValueError] and returns nothing. *)
Theorem wrong_width_raises (team_data : list (list string)) :
  Exists (fun row => length row <> 21%nat) team_data ->
  _create_teams team_data = Raise ValueError.
Proof.
  intros Hbad. apply create_from_Exists.
  eapply Exists_impl; [exact Hbad|]. intros row Hlen [team E].
  by apply team_of_row_Ok in E as [? _].
Qed.

Lemma wrong_width_raises_witness :
  _create_teams [drop 1 acme_tokens; acme_tokens; []] = Raise ValueError.
Proof.
  apply wrong_width_raises. apply Exists_cons_tl, Exists_cons_hd.
  simpl. lia.
Defined.



(** X10: every entry of the mapping is the team of a row of the input,
    stored under the name token of that row, which is also the [name] of
    the team; name and conference are the tokens as they are, not
    trimmed. *)
Theorem entries_come_from_rows (team_data : list (list string))
    (m : gmap string Team.Team) (n : string) (team : Team.Team) :
  _create_teams team_data = Ok m -> m !! n = Some team ->
  Team.name team = n /\
  exists row, row ∈ team_data /\
              _create_teams [row] = Ok {[ n := team ]} /\
              row !! 1%nat = Some n /\
              row !! 2%nat = Some (Team.conference team).
Proof.
  intros Hm Hn.
  destruct (create_from_lookup _ _ _ _ _ Hm Hn) as [H|(row & Hin & E & <-)];
    [by rewrite lookup_empty in H|].
  split; [done|]. exists row. split; [done|].
  rewrite create_one, E. split; [done|].
  by apply team_of_row_Ok in E as (_ & _ & _ & ? & ? & _).
Qed.

Lemma entries_come_from_rows_witness :
  Team.name acme_team = "Acme U" /\
  exists row, row ∈ [rank_zero_row; drop 1 acme_tokens] /\
              _create_teams [row] = Ok {[ "Acme U" := acme_team ]} /\
              row !! 1%nat = Some "Acme U" /\
              row !! 2%nat = Some (Team.conference acme_team).
Proof.
  apply (entries_come_from_rows [rank_zero_row; drop 1 acme_tokens]
           {[ "Acme U" := acme_team ]}).
  - vm_compute; reflexivity.
  - vm_compute; reflexivity.
Defined.

Lemma names_cons_Ok row team_data team :
  team_of_row row = Ok team ->
  names (row :: team_data) = Team.name team :: names team_data.
Proof.
  intros E. apply team_of_row_Ok in E as (_ & _ & _ & Hname & _).
  unfold names. simpl. by rewrite Hname.
Qed.

Lemma create_from_dom team_data : forall teams m,
  _create_teams_from teams team_data = Ok m ->
  dom m = dom teams ∪ list_to_set (names team_data) /\
  length (names team_data) = length team_data.
Proof.
  induction team_data as [|row team_data IH]; intros teams m.
  - intros [= <-]. split; [|done]. simpl. by rewrite (right_id_L ∅ (∪)).
  - rewrite create_from_cons.
    destruct (team_of_row row) as [team|] eqn:E; [|done].
    change (Ok team ≫= ?f) with (f team). cbv beta.
    intros [Hdom Hlen]%IH. rewrite (names_cons_Ok _ _ _ E).
    split; [|simpl; by rewrite Hlen].
    rewrite Hdom, dom_insert_L, list_to_set_cons.
    by rewrite (assoc_L (∪)), (comm_L (∪) (dom teams)).
Qed.

(** X11: the keys of the mapping are the name tokens of the rows, no
    more and no fewer; when no two rows have the same name token the
    mapping has as many entries as there are rows. *)
Theorem keys_are_names (team_data : list (list string))
    (m : gmap string Team.Team) :
  _create_teams team_data = Ok m ->
  dom m = list_to_set (names team_data) /\
  (NoDup (names team_data) -> size m = length team_data).
Proof.
  intros [Hdom Hlen]%create_from_dom.
  rewrite dom_empty_L, (left_id_L ∅ (∪)) in Hdom. split; [done|].
  intros Hnd. by rewrite <- size_dom, Hdom, size_list_to_set, Hlen.
Qed.

Lemma keys_are_names_witness :
  dom ({[ "Acme U" := acme_team ]} : gmap string Team.Team) =
    list_to_set (names [drop 1 acme_tokens]) /\
  (NoDup (names [drop 1 acme_tokens]) ->
   size ({[ "Acme U" := acme_team ]} : gmap string Team.Team) =
     length [drop 1 acme_tokens]).
Proof.
  apply (keys_are_names [drop 1 acme_tokens]). vm_compute; reflexivity.
Defined.

(** X12: the tokens the builder binds to [_] (the rank-change marks
    after the statistics) play no part: whatever stands in one of these
    columns, the row gives the same result. *)
Theorem ignored_columns_ignored (teams : gmap string Team.Team)
    (row : list string) (i : nat) (tok : string) :
  i ∈ ignored_columns ->
  _create_teams_body teams (<[i := tok]> row) = _create_teams_body teams row.
Proof.
  unfold ignored_columns. intros Hi.
  repeat (apply elem_of_cons in Hi as [->|Hi]);
    [row_cases row ltac:(done); done..|by apply elem_of_nil in Hi].
Qed.

Lemma ignored_columns_ignored_witness :
  _create_teams_body ∅ (<[6%nat := "+3"]> (drop 1 acme_tokens)) =
  _create_teams_body ∅ (drop 1 acme_tokens).
Proof.
  apply ignored_columns_ignored. unfold ignored_columns.
  apply elem_of_cons. by left.
Defined.

(** ** Rows put together *)

Lemma create_from_union team_data : forall teams,
  _create_teams_from teams team_data =
  m ← _create_teams_from ∅ team_data; Ok (m ∪ teams).
Proof.
  induction team_data as [|row team_data IH]; intros teams.
  - simpl. by rewrite (left_id_L ∅ (∪)).
  - rewrite !create_from_cons.
    destruct (team_of_row row) as [team|]; [|done].
    change (Ok team ≫= ?f) with (f team). cbv beta.
    rewrite (IH (<[Team.name team := team]> teams)),
      (IH (<[Team.name team := team]> ∅)).
    destruct (_create_teams_from ∅ team_data) as [m|]; [|done].
    simpl. f_equal.
    by rewrite insert_empty, (insert_union_singleton_l teams),
      (assoc_L (∪)).
Qed.

(** X13: the builder on two lists of rows one after the other gives the
    two mappings merged, the teams of the second list taking the place of
    those of the first under the same name, and fails when it fails on
    one of the two; so rows met twice (the same page fed twice to one
    extractor) change nothing. *)
Theorem create_teams_app (data1 data2 : list (list string)) :
  _create_teams (data1 ++ data2) =
    (m1 ← _create_teams data1; m2 ← _create_teams data2; Ok (m2 ∪ m1)) /\
  _create_teams (data1 ++ data1) = _create_teams data1.
Proof.
  assert (forall d1 d2, _create_teams (d1 ++ d2) =
    (m1 ← _create_teams d1; m2 ← _create_teams d2; Ok (m2 ∪ m1))) as Happ.
  { intros d1 d2. unfold _create_teams. rewrite create_from_app.
    destruct (_create_teams_from ∅ d1) as [m1|]; [|done].
    change (Ok m1 ≫= ?f) with (f m1). cbv beta.
    apply create_from_union. }
  split; [apply Happ|]. rewrite Happ.
  destruct (_create_teams data1) as [m1|]; [|done]. simpl.
  by rewrite (idemp_L (∪)).
Qed.





(** ** Values that are not checked *)

Lemma is_Ok_bind {A B} (r : result A) (f : A -> result B) :
  is_Ok (r ≫= f) <-> exists a, r = Ok a /\ is_Ok (f a).
Proof.
  destruct r as [a|e]; simpl.
  - split; [intros H; by exists a|]. by intros (a' & [= <-] & H).
  - split; [by intros [? [=]]|]. by intros (a' & [=] & _).
Qed.

(** X14: a statistic is whatever [float()] makes of its token, a number
    or not: in a row that converts, any of the nine statistics can be
    replaced by ["nan"] or by an infinity and the row still converts. *)
Theorem statistics_not_validated (teams : gmap string Team.Team)
    (row : list string) (i : nat) (tok : string) :
  i ∈ statistic_columns -> tok ∈ ["nan"; "inf"; "-inf"] ->
  is_Ok (_create_teams_body teams row) ->
  is_Ok (_create_teams_body teams (<[i := tok]> row)).
Proof.
  intros Hi Htok. rewrite !body_team_of_row, !is_Ok_bind.
  intros (team & E & _).
  assert (exists x, py_float tok = Some x) as [x Hx].
  { repeat (apply elem_of_cons in Htok as [->|Htok]);
      [by eexists..|by apply elem_of_nil in Htok]. }
  pose proof (team_of_row_Ok _ _ E)
    as (Hlen & (rec & a & b & Hrec & Hsplit & Ha & Hb) & H0 & _ & _ & H4 & H5
        & H7 & H9 & H11 & H13 & H15 & H17 & H19).
  destruct (team_of_row_parses (<[i := tok]> row) rec a b
              (Team.wins team) (Team.losses team)) as (team' & E' & _);
    [by rewrite length_insert| |done..| |].
  - unfold statistic_columns in Hi.
    repeat (apply elem_of_cons in Hi as [->|Hi]);
      [by rewrite list_lookup_insert_ne..|by apply elem_of_nil in Hi].
  - unfold statistic_columns in Hi.
    repeat (apply elem_of_cons in Hi as [->|Hi]);
      [..|by apply elem_of_nil in Hi];
      (split; [unfold rank_column; rewrite list_lookup_insert_ne by done;
               by eexists|]);
      unfold statistic_columns; repeat constructor;
      first [ rewrite list_lookup_insert_eq by lia; simpl; rewrite Hx;
              by eexists
            | rewrite list_lookup_insert_ne by done; by eexists ].
  - exists team'. split; [done|]. by eexists.
Qed.

Lemma statistics_not_validated_witness :
  is_Ok (_create_teams_body ∅ (<[11%nat := "nan"]> (drop 1 acme_tokens))).
Proof.
  apply statistics_not_validated.
  - unfold statistic_columns. rewrite !elem_of_cons. tauto.
  - apply elem_of_cons. by left.
  - eexists. vm_compute. reflexivity.
Defined.

